(** * sysoff.c: system offset estimation (linuxptp)

    A shallow embedding of [sysoff.c] and the properties of its time codec,
    its four samplers, its best-of-N selector and its capability prober.

    Conventions of the embedding.
    - C integers are [Z] values kept inside their type's range; every
      arithmetic result is brought back into range by the two's complement
      wrap-around of its type ([s64], [u64], [u32], [s32]).
    - An array is a [list]; a read outside of it has no defined result and
      makes the enclosing function return [None].
    - Out-parameters ([*result], [*ts], [*delay]) are a record that each
      function receives and returns.
    - The device ([ioctl], [poll], [read]) is a set of transition functions
      on an abstract world; every request, diagnostic and warning is
      appended to a chronological log. *)

From Stdlib Require Import String ZArith List Lia Bool.
Import ListNotations.
Open Scope Z_scope.

(** ** Fixed-width integers *)

Module Int.

Definition u32 (x : Z) : Z := x mod 2 ^ 32.
Definition u64 (x : Z) : Z := x mod 2 ^ 64.
Definition s32 (x : Z) : Z := (x + 2 ^ 31) mod 2 ^ 32 - 2 ^ 31.
Definition s64 (x : Z) : Z := (x + 2 ^ 63) mod 2 ^ 64 - 2 ^ 63.

Definition in_s64 (x : Z) : Prop := - 2 ^ 63 <= x < 2 ^ 63.
Definition in_u64 (x : Z) : Prop := 0 <= x < 2 ^ 64.
Definition in_u32 (x : Z) : Prop := 0 <= x < 2 ^ 32.
Definition in_s32 (x : Z) : Prop := - 2 ^ 31 <= x < 2 ^ 31.

(** 64-bit signed operators of C ([long long], [int64_t]). *)
Definition add64 (a b : Z) : Z := s64 (a + b).
Definition sub64 (a b : Z) : Z := s64 (a - b).
Definition mul64 (a b : Z) : Z := s64 (a * b).
(** [/] and [%] of C truncate toward zero. *)
Definition div64 (a b : Z) : Z := s64 (Z.quot a b).
Definition rem64 (a b : Z) : Z := s64 (Z.rem a b).

End Int.
Import Int.

(** ** Constants and types *)

Definition NS_PER_SEC : Z := 1000000000.
Definition NS_PER_MSEC : Z := 1000000.

(** [PTP_MAX_SAMPLES] of <linux/ptp_clock.h>. *)
Definition PTP_MAX_SAMPLES : Z := 25.

(** [struct ptp_clock_time] of <linux/ptp_clock.h>:
    [__s64 sec; __u32 nsec; __u32 reserved]. *)
Record ptp_clock_time : Type := mk_pct {
  sec : Z;
  nsec : Z;
  reserved : Z
}.

Definition pct_zero : ptp_clock_time := mk_pct 0 0 0.

(** A [ptp_clock_time] whose fields are in the range of their C types. *)
Definition pct_wf (t : ptp_clock_time) : Prop :=
  in_s64 (sec t) /\ in_u32 (nsec t) /\ in_u32 (reserved t).

(** Modelled from the spec: the method identifiers of [sysoff.h], which is
    not among the sources.  [sysoff_probe] needs [SYSOFF_RUN_TIME_MISSING]
    to be negative, [SYSOFF_CROSS] to be non-negative and the methods after
    [SYSOFF_CROSS] and before [SYSOFF_LAST] to be, in this order, Precise,
    Extended and Basic (spec, 3 and 4.9). *)
Definition SYSOFF_RUN_TIME_MISSING : Z := -1.
Definition SYSOFF_CROSS : Z := 0.
Definition SYSOFF_PRECISE : Z := 1.
Definition SYSOFF_EXTENDED : Z := 2.
Definition SYSOFF_BASIC : Z := 3.
Definition SYSOFF_LAST : Z := 4.

(** ** Time codec *)

(** [static int64_t pctns(struct ptp_clock_time *t)] *)
Definition pctns (t : ptp_clock_time) : Z :=
  add64 (mul64 (sec t) NS_PER_SEC) (nsec t).

(** [static void nspct(int64_t t, struct ptp_clock_time *pct)]: the two
    assignments to [pct->sec] and [pct->nsec]; [reserved] is not written. *)
Definition nspct (t : Z) (pct : ptp_clock_time) : ptp_clock_time :=
  {| sec := div64 t NS_PER_SEC;
     nsec := u32 (rem64 t NS_PER_SEC);
     reserved := reserved pct |}.

(** ** Sample selector *)

(** [pct[i]]: no result outside of the array. *)
Definition at_index (pct : list ptp_clock_time) (i : Z) : option ptp_clock_time :=
  if i <? 0 then None else nth_error pct (Z.to_nat i).

(** The bracket [(t1, tp, t2)] that the source reads for index [i]
    (lines 118-126 and 132-140): stride 3 when [extended] is non-zero,
    stride 2 otherwise. *)
Definition read_bracket (pct : list ptp_clock_time) (extended : Z) (i : Z)
  : option (Z * Z * Z) :=
  if negb (extended =? 0) then
    match at_index pct (3 * i), at_index pct (3 * i + 1), at_index pct (3 * i + 2) with
    | Some a, Some p, Some b => Some (pctns a, pctns p, pctns b)
    | _, _, _ => None
    end
  else
    match at_index pct (2 * i), at_index pct (2 * i + 1), at_index pct (2 * i + 2) with
    | Some a, Some p, Some b => Some (pctns a, pctns p, pctns b)
    | _, _, _ => None
    end.

(** The locals [shortest_interval], [best_timestamp], [best_offset]. *)
Record best : Type := mk_best {
  shortest_interval : Z;
  best_timestamp : Z;
  best_offset : Z
}.

(** Lines 127-129: the first sample initialises the running best. *)
Definition first_best (b : Z * Z * Z) : best :=
  let '(t1, tp, t2) := b in
  let ts := div64 (add64 t2 t1) 2 in
  mk_best (sub64 t2 t1) ts (sub64 ts tp).

(** Lines 141-148: one iteration's comparison and update. *)
Definition update_best (acc : best) (b : Z * Z * Z) : best :=
  let '(t1, tp, t2) := b in
  let interval := sub64 t2 t1 in
  let timestamp := div64 (add64 t2 t1) 2 in
  let offset := sub64 timestamp tp in
  if interval <? shortest_interval acc
  then mk_best interval timestamp offset
  else acc.

(** [for (i = 1; i < n_samples; i++)]: [count] iterations remain and the
    loop variable is [i]. *)
Fixpoint estimate_loop (pct : list ptp_clock_time) (extended : Z)
    (count : nat) (i : Z) (acc : best) : option best :=
  match count with
  | O => Some acc
  | S count' =>
      match read_bracket pct extended i with
      | None => None
      | Some b => estimate_loop pct extended count' (i + 1) (update_best acc b)
      end
  end.

(** What [sysoff_estimate] hands back: its return value and the values it
    stores through [ts] (a [uint64_t]) and [delay]. *)
Record estimate : Type := mk_estimate {
  est_offset : Z;
  est_ts : Z;
  est_delay : Z
}.

(** [static int64_t sysoff_estimate(struct ptp_clock_time *pct, int extended,
    int n_samples, uint64_t *ts, int64_t *delay)] *)
Definition sysoff_estimate (pct : list ptp_clock_time) (extended : Z)
    (n_samples : Z) : option estimate :=
  match read_bracket pct extended 0 with
  | None => None
  | Some b0 =>
      match estimate_loop pct extended (Z.to_nat (n_samples - 1)) 1 (first_best b0) with
      | None => None
      | Some acc =>
          Some (mk_estimate (best_offset acc) (u64 (best_timestamp acc))
                            (shortest_interval acc))
      end
  end.

(** ** The device and the program state *)

(** [struct ptp_sys_offset_precise] of <linux/ptp_clock.h>. *)
Record ptp_sys_offset_precise : Type := mk_precise {
  device : ptp_clock_time;
  sys_realtime : ptp_clock_time;
  sys_monoraw : ptp_clock_time
}.

(** Modelled from the spec: [struct ptp_extts_event_cross], declared in a
    kernel header that is not among the sources.  The spec's CrossEvent has
    a device time, a system timestamp and a flags word; the source reads
    the fields [t], [tstamp] and [flags]. *)
Record ptp_extts_event_cross : Type := mk_event_cross {
  t : ptp_clock_time;
  tstamp : Z;
  flags : Z
}.

(** Modelled from the spec: what the same header fixes about a cross event,
    taken as parameters: the size of one record, how its bytes are read as
    a record, the mask [PTP_EVENT_CROSS] of the cross-timestamp-valid flag
    and the macro [PTP_EVENT_CROSS_DELAY] that extracts the delay sub-field
    of [flags]. *)
Record cross_abi : Type := mk_abi {
  sizeof_event : Z;
  decode_event : list Byte.byte -> ptp_extts_event_cross;
  PTP_EVENT_CROSS : Z;
  PTP_EVENT_CROSS_DELAY : Z -> Z
}.

(** The control requests of the device, with the argument the program
    puts in the request structure. *)
Inductive request : Type :=
| PTP_SYS_OFFSET_PRECISE
| PTP_SYS_OFFSET_EXTENDED (n_samples : Z)
| PTP_SYS_OFFSET (n_samples : Z)
| PTP_CROSSTS_REQUEST (period : ptp_clock_time).

(** What the program does to the outside, in order. *)
Inductive event : Type :=
| Ioctl (fd : Z) (r : request)
| Poll (fd : Z) (timeout : Z)
| Read (fd : Z) (count : Z)
| PrDebug (fmt : string) (errno : Z)
| Perror (s : string) (errno : Z)
| FprintfStderr (fmt : string) (args : list Z).

(** The kernel side, as transition functions on a world [W].  An [ioctl]
    gives its return value and what it wrote into the request structure
    (for the two sample requests: the timestamps it stored, from the start
    of [ts]); [read] gives the bytes it delivered, or [None] when it
    fails. *)
Record driver (W : Type) : Type := mk_driver {
  drv_errno : W -> Z;
  drv_precise : Z -> W -> Z * ptp_sys_offset_precise * W;
  drv_extended : Z -> Z -> W -> Z * list ptp_clock_time * W;
  drv_basic : Z -> Z -> W -> Z * list ptp_clock_time * W;
  drv_crossts : Z -> ptp_clock_time -> W -> Z * W;
  drv_poll : Z -> W -> Z * W;
  drv_read : Z -> Z -> W -> option (list Byte.byte) * W
}.
Arguments drv_errno {W}.
Arguments drv_precise {W}.
Arguments drv_extended {W}.
Arguments drv_basic {W}.
Arguments drv_crossts {W}.
Arguments drv_poll {W}.
Arguments drv_read {W}.

(** The values behind the pointers [result], [ts] and [delay]. *)
Record outs : Type := mk_outs {
  o_result : Z;
  o_ts : Z;
  o_delay : Z
}.

(** [dst] with its first elements overwritten by [src], its length kept. *)
Definition overwrite {A : Type} (dst src : list A) : list A :=
  firstn (length dst) (src ++ skipn (length src) dst).

Section Program.

Context {W : Type}.
Variable drv : driver W.

(** The world, the log and [static char buf[4096]] of [sysoff_cross]. *)
Record state : Type := mk_state {
  world : W;
  log : list event;
  buf : list Byte.byte
}.

(** A computation either has no defined result or gives a value and the
    next state. *)
Definition M (A : Type) : Type := state -> option (A * state).

Definition ret {A : Type} (a : A) : M A := fun s => Some (a, s).

Definition bind {A B : Type} (m : M A) (k : A -> M B) : M B :=
  fun s => match m s with
           | None => None
           | Some (a, s') => k a s'
           end.

Definition undefined {A : Type} : M A := fun _ => None.

Definition emit (e : event) : M unit :=
  fun s => Some (tt, mk_state (world s) (log s ++ [e]) (buf s)).

Definition on_world {A : Type} (f : W -> A * W) : M A :=
  fun s => let '(a, w) := f (world s) in
           Some (a, mk_state w (log s) (buf s)).

Definition get_errno : M Z := fun s => Some (drv_errno drv (world s), s).

End Program.

Arguments state W : clear implicits.
Arguments M W A : clear implicits.

Declare Scope prog_scope.
Delimit Scope prog_scope with prog.
Notation "x <- m ;; k" := (bind m (fun x => k))
  (at level 61, m at next level, right associativity) : prog_scope.
Notation "' p <- m ;; k" := (bind m (fun x => match x with p => k end))
  (at level 61, p pattern, m at next level, right associativity) : prog_scope.
Notation "m ;;; k" := (bind m (fun _ => k))
  (at level 61, right associativity) : prog_scope.

(** ** The samplers, the dispatcher and the prober *)

Section Sysoff.

Context {W : Type}.
Variable drv : driver W.
Variable abi : cross_abi.

Local Open Scope string_scope.
Local Open Scope Z_scope.
Local Open Scope prog_scope.

Local Abbreviation M := (M W).

(** Modelled from the spec: [pr_debug] of [print.h], which is not among the
    sources; a diagnostic at debug level, kept in the log.  [%m] in [fmt]
    stands for the current [errno], which the log keeps next to the
    format. *)
Definition pr_debug (fmt : string) : M unit :=
  e <- get_errno drv ;; emit (PrDebug fmt e).

(** [perror(s)] of libc: [s] and the text of the current [errno], on the
    standard error. *)
Definition perror (s : string) : M unit :=
  e <- get_errno drv ;; emit (Perror s e).

(** [fprintf(stderr, fmt, args...)] *)
Definition fprintf_stderr (fmt : string) (args : list Z) : M unit :=
  emit (FprintfStderr fmt args).

(** [ioctl(fd, request, &arg)]: logged, then answered by the driver. *)
Definition ioctl {A : Type} (fd : Z) (r : request) (f : W -> Z * A * W) : M (Z * A) :=
  emit (Ioctl fd r) ;;;
  on_world (fun w => let '(rc, a, w') := f w in ((rc, a), w')).

(** [static int sysoff_precise(int fd, int64_t *result, uint64_t *ts)] *)
Definition sysoff_precise (fd : Z) (o : outs) : M (Z * outs) :=
  '(rc, pso) <- ioctl fd PTP_SYS_OFFSET_PRECISE (drv_precise drv fd) ;;
  if negb (rc =? 0) then
    pr_debug "ioctl PTP_SYS_OFFSET_PRECISE: %m" ;;;
    ret (SYSOFF_RUN_TIME_MISSING, o)
  else
    ret (SYSOFF_PRECISE,
         mk_outs (sub64 (pctns (sys_realtime pso)) (pctns (device pso)))
                 (u64 (pctns (sys_realtime pso)))
                 (o_delay o)).

(** [poll(&pfd, 1, 0)] *)
Definition poll (fd : Z) (timeout : Z) : M Z :=
  emit (Poll fd timeout) ;;; on_world (drv_poll drv fd).

(** [read(fd, buf, sizeof(buf))]: at most [count] bytes are delivered, to the
    start of [buf]; the return value is their number, or -1 on failure. *)
Definition read (fd : Z) (count : Z) : M Z :=
  emit (Read fd count) ;;;
  r <- on_world (drv_read drv fd count) ;;
  match r with
  | None => ret (-1)
  | Some data =>
      fun s =>
        let data' := firstn (Z.to_nat count) data in
        Some (Z.of_nat (length data'),
              mk_state (world s) (log s) (overwrite (buf s) data'))
  end.

Definition get_buf : M (list Byte.byte) := fun s => Some (buf s, s).

(** The record that a [struct ptp_extts_event_cross *] to [&buf[off]]
    designates; nothing when it does not lie inside [buf]. *)
Definition event_at (b : list Byte.byte) (off : Z) : option ptp_extts_event_cross :=
  if (0 <=? off) && (off + sizeof_event abi <=? Z.of_nat (length b)) then
    Some (decode_event abi
            (firstn (Z.to_nat (sizeof_event abi)) (skipn (Z.to_nat off) b)))
  else None.

Definition sizeof_buf : Z := 4096.

(** [static int sysoff_cross(int fd, int64_t *result, uint64_t *ts,
    int64_t *delay)].  [ret] is an [ssize_t]; where it is compared with and
    divided by the size of an event it is converted to [size_t]; [num] is
    an [int]. *)
Definition sysoff_cross (fd : Z) (o : outs) : M (Z * outs) :=
  r <- poll fd 0 ;;
  if r <? 1 then
    pr_debug "poll sysoff_cross: %m" ;;;
    ret (SYSOFF_RUN_TIME_MISSING, o)
  else
    r <- read fd sizeof_buf ;;
    if r <? 0 then
      pr_debug "read sysoff_cross: %m" ;;;
      ret (SYSOFF_RUN_TIME_MISSING, o)
    else if u64 r <? sizeof_event abi then
      pr_debug "invalid event size" ;;;
      ret (SYSOFF_RUN_TIME_MISSING, o)
    else
      let num := s32 (u64 r / sizeof_event abi) in
      b <- get_buf ;;
      match event_at b (u64 ((num - 1) * sizeof_event abi)) with
      | None => undefined
      | Some ev =>
          if Z.land (flags ev) (PTP_EVENT_CROSS abi) =? 0 then
            pr_debug "invalid event flags" ;;;
            ret (SYSOFF_RUN_TIME_MISSING, o)
          else
            ret (SYSOFF_CROSS,
                 mk_outs (sub64 (pctns (t ev)) (tstamp ev))
                         (u64 (pctns (t ev)))
                         (s64 (PTP_EVENT_CROSS_DELAY abi (flags ev))))
      end.

(** [static int sysoff_cross_enable(int fd, int period)]; [cross] is zeroed
    by [memset] before [nspct] fills its [period]. *)
Definition sysoff_cross_enable (fd : Z) (period : Z) : M Z :=
  let cross_period := nspct period pct_zero in
  rc <- (emit (Ioctl fd (PTP_CROSSTS_REQUEST cross_period)) ;;;
         on_world (drv_crossts drv fd cross_period)) ;;
  if negb (rc =? 0) then
    pr_debug "ioctl PTP_CROSSTS_REQUEST: %m" ;;;
    ret SYSOFF_RUN_TIME_MISSING
  else
    ret SYSOFF_CROSS.

(** An undefined result of [sysoff_estimate] is one of the caller. *)
Definition run_estimate (e : option estimate) (o : outs) : M outs :=
  match e with
  | None => undefined
  | Some e => ret (mk_outs (est_offset e) (est_ts e) (est_delay e))
  end.

(** [pso.ts] of [struct ptp_sys_offset_extended], a
    [struct ptp_clock_time ts[PTP_MAX_SAMPLES][3]] read through
    [&pso.ts[0][0]], after [memset] and once the device has stored
    [written]. *)
Definition ts_extended (written : list ptp_clock_time) : list ptp_clock_time :=
  overwrite (repeat pct_zero (Z.to_nat (PTP_MAX_SAMPLES * 3))) written.

(** [pso.ts] of [struct ptp_sys_offset], a
    [struct ptp_clock_time ts[2 * PTP_MAX_SAMPLES + 1]]. *)
Definition ts_basic (written : list ptp_clock_time) : list ptp_clock_time :=
  overwrite (repeat pct_zero (Z.to_nat (2 * PTP_MAX_SAMPLES + 1))) written.

(** [static int sysoff_extended(int fd, int n_samples, int64_t *result,
    uint64_t *ts, int64_t *delay)]; [pso.n_samples] is an [unsigned int]. *)
Definition sysoff_extended (fd : Z) (n_samples : Z) (o : outs) : M (Z * outs) :=
  '(rc, written) <- ioctl fd (PTP_SYS_OFFSET_EXTENDED (u32 n_samples))
                          (drv_extended drv fd (u32 n_samples)) ;;
  if negb (rc =? 0) then
    pr_debug "ioctl PTP_SYS_OFFSET_EXTENDED: %m" ;;;
    ret (SYSOFF_RUN_TIME_MISSING, o)
  else
    o' <- run_estimate (sysoff_estimate (ts_extended written) 1 n_samples) o ;;
    ret (SYSOFF_EXTENDED, o').

(** [static int sysoff_basic(int fd, int n_samples, int64_t *result,
    uint64_t *ts, int64_t *delay)] *)
Definition sysoff_basic (fd : Z) (n_samples : Z) (o : outs) : M (Z * outs) :=
  '(rc, written) <- ioctl fd (PTP_SYS_OFFSET (u32 n_samples))
                          (drv_basic drv fd (u32 n_samples)) ;;
  if negb (rc =? 0) then
    perror "ioctl PTP_SYS_OFFSET" ;;;
    ret (SYSOFF_RUN_TIME_MISSING, o)
  else
    o' <- run_estimate (sysoff_estimate (ts_basic written) 0 n_samples) o ;;
    ret (SYSOFF_BASIC, o').

(** [int sysoff_measure(int fd, int method, int n_samples, int64_t *result,
    uint64_t *ts, int64_t *delay)] *)
Definition sysoff_measure (fd : Z) (method : Z) (n_samples : Z) (o : outs)
  : M (Z * outs) :=
  if method =? SYSOFF_CROSS then
    sysoff_cross fd (mk_outs (o_result o) (o_ts o) 0)
  else if method =? SYSOFF_PRECISE then
    sysoff_precise fd (mk_outs (o_result o) (o_ts o) 0)
  else if method =? SYSOFF_EXTENDED then
    sysoff_extended fd n_samples o
  else if method =? SYSOFF_BASIC then
    sysoff_basic fd n_samples o
  else
    ret (SYSOFF_RUN_TIME_MISSING, o).

(** The loop of [sysoff_probe]: [count] iterations remain, the loop
    variable is [i] and [o] holds the locals [junk], [ts] and [delay]. *)
Fixpoint probe_loop (fd : Z) (n_samples : Z) (count : nat) (i : Z) (o : outs)
  : M Z :=
  match count with
  | O => ret SYSOFF_RUN_TIME_MISSING
  | S count' =>
      '(r, o') <- sysoff_measure fd i n_samples o ;;
      if r <? 0 then probe_loop fd n_samples count' (i + 1) o'
      else ret i
  end.

(** [int sysoff_probe(int fd, int n_samples)].  The locals [junk], [ts] and
    [delay] are not initialised and never read; they start here as 0. *)
Definition sysoff_probe (fd : Z) (n_samples : Z) : M Z :=
  let period := s32 (1 * NS_PER_MSEC) in
  if n_samples >? PTP_MAX_SAMPLES then
    fprintf_stderr "warning: %d exceeds kernel max readings %d\n"
                   [n_samples; PTP_MAX_SAMPLES] ;;;
    fprintf_stderr "falling back to clock_gettime method\n" [] ;;;
    ret SYSOFF_RUN_TIME_MISSING
  else
    r <- sysoff_cross_enable fd period ;;
    if r >=? 0 then ret SYSOFF_CROSS
    else
      probe_loop fd n_samples
                 (Z.to_nat (SYSOFF_LAST - (SYSOFF_CROSS + 1)))
                 (SYSOFF_CROSS + 1) (mk_outs 0 0 0).

End Sysoff.

(** * Definitions used to state the properties *)

(** The interval and the midpoint that the selector computes for a bracket
    [(before, hw, after)], read off [first_best]. *)
Definition interval_of (b : Z * Z * Z) : Z := shortest_interval (first_best b).
Definition mid_of (b : Z * Z * Z) : Z := best_timestamp (first_best b).
Definition offset_of (b : Z * Z * Z) : Z := best_offset (first_best b).

(** ** The selector on a list of brackets *)

Module Selector.

(** The selection loop run over brackets that were already read. *)
Definition scan (acc : best) (l : list (Z * Z * Z)) : best :=
  fold_left update_best l acc.

(** The selector on a non-empty batch: initialise with the first bracket,
    scan the others. *)
Definition select (l : list (Z * Z * Z)) : option best :=
  match l with
  | [] => None
  | b0 :: r => Some (scan (first_best b0) r)
  end.

(** [x] is the first bracket of [l1 ++ x :: l2] with the smallest
    interval. *)
Definition first_min (l1 : list (Z * Z * Z)) (x : Z * Z * Z)
    (l2 : list (Z * Z * Z)) : Prop :=
  Forall (fun y => interval_of x < interval_of y) l1 /\
  Forall (fun y => interval_of x <= interval_of y) l2.

(** The smallest interval of a batch (0 for the empty one). *)
Definition min_interval (l : list (Z * Z * Z)) : Z :=
  match l with
  | [] => 0
  | b0 :: r => fold_left Z.min (map interval_of r) (interval_of b0)
  end.

(** [s] put at position [k] of [l]. *)
Definition insert_at {A : Type} (k : nat) (s : A) (l : list A) : list A :=
  firstn k l ++ s :: skipn k l.

End Selector.

(** ** The samples of an array *)

(** The brackets that [count] iterations read, from index [i] on. *)
Fixpoint brackets (pct : list ptp_clock_time) (extended : Z)
    (count : nat) (i : Z) : option (list (Z * Z * Z)) :=
  match count with
  | O => Some []
  | S count' =>
      match read_bracket pct extended i, brackets pct extended count' (i + 1) with
      | Some b, Some r => Some (b :: r)
      | _, _ => None
      end
  end.

Definition to_estimate (acc : best) : estimate :=
  mk_estimate (best_offset acc) (u64 (best_timestamp acc)) (shortest_interval acc).

(** The layout of the samples as the spec words it: sample [i] is made of
    the device timestamps at [stride * i], [stride * i + 1] and
    [stride * i + 2], with stride 3 in extended mode and 2 in basic mode. *)
Definition stride (extended : Z) : Z := if extended =? 0 then 2 else 3.

Definition sample_at (pct : list ptp_clock_time) (extended : Z) (i : Z)
    (b : Z * Z * Z) : Prop :=
  exists a p c,
    nth_error pct (Z.to_nat (stride extended * i)) = Some a /\
    nth_error pct (Z.to_nat (stride extended * i + 1)) = Some p /\
    nth_error pct (Z.to_nat (stride extended * i + 2)) = Some c /\
    b = (pctns a, pctns p, pctns c).

(** A sample as the device stores it: the three timestamps of a bracket. *)
Definition sample : Type := ptp_clock_time * ptp_clock_time * ptp_clock_time.

Definition bracket_of (s : sample) : Z * Z * Z :=
  let '(a, p, c) := s in (pctns a, pctns p, pctns c).

(** The array of independent triplets that holds a sequence of samples. *)
Definition layout_extended (l : list sample) : list ptp_clock_time :=
  flat_map (fun s : sample => let '(a, p, c) := s in [a; p; c]) l.

(** The result computed from the first three timestamps of an array. *)
Definition first_triplet (pct : list ptp_clock_time) : option estimate :=
  match pct with
  | a :: p :: c :: _ => Some (to_estimate (first_best (pctns a, pctns p, pctns c)))
  | _ => None
  end.

(** ** Outcomes of a run *)

(** The outputs that a result of [sysoff_estimate] leaves behind [result],
    [ts] and [delay]. *)
Definition outs_of (e : estimate) : outs :=
  mk_outs (est_offset e) (est_ts e) (est_delay e).

(** The period that [sysoff_probe] asks for: 1 millisecond. *)
Definition probe_period : ptp_clock_time := mk_pct 0 1000000 0.

Section Outcomes.

Context {W : Type}.

(** The state after a step that moved the world to [w] and logged [es]. *)
Definition after (s : state W) (w : W) (es : list event) : state W :=
  mk_state w (log s ++ es) (buf s).

(** What a run returns, without the state it ends in. *)
Definition returned {A : Type} (r : option (A * state W)) : option A :=
  option_map fst r.

End Outcomes.

(** ** Example devices *)

(** The spec's example: brackets (100, 150, 300) and (1000, 1040, 1100),
    as independent triplets. *)
Definition example_pct : list ptp_clock_time :=
  [mk_pct 0 100 0; mk_pct 0 150 0; mk_pct 0 300 0;
   mk_pct 0 1000 0; mk_pct 0 1040 0; mk_pct 0 1100 0].

(** The two samples of the spec's example. *)
Definition example_samples : list sample :=
  [(mk_pct 0 100 0, mk_pct 0 150 0, mk_pct 0 300 0);
   (mk_pct 0 1000 0, mk_pct 0 1040 0, mk_pct 0 1100 0)].

(** A device that answers each request with a fixed return value:
    [cross], [precise], [extended] and [basic] are the return values of
    the four [ioctl]s, [e] is the [errno] it leaves.  The Precise request
    stores the spec's example (system time 5 s, device time 50 ns less),
    the two sample requests store [samples], [poll] reports [ready]
    descriptors and [read] delivers [stream]. *)
Definition sim_driver (cross precise extended basic e : Z)
    (samples : list ptp_clock_time) (ready : Z)
    (stream : option (list Byte.byte)) : driver unit :=
  {| drv_errno := fun _ => e;
     drv_precise := fun _ w =>
       (precise,
        mk_precise (mk_pct 4 999999950 0) (mk_pct 5 0 0) pct_zero, w);
     drv_extended := fun _ _ w => (extended, samples, w);
     drv_basic := fun _ _ w => (basic, samples, w);
     drv_crossts := fun _ _ w => (cross, w);
     drv_poll := fun _ w => (ready, w);
     drv_read := fun _ _ w => (stream, w) |}.

(** A device that refuses every request with [errno] [e]. *)
Definition failing_driver (e : Z) : driver unit :=
  sim_driver (-1) (-1) (-1) (-1) e [] 0 None.

Definition byte_of (x : Z) : Byte.byte :=
  match Byte.of_N (Z.to_N (x mod 256)) with
  | Some b => b
  | None => Byte.x00
  end.

Fixpoint le_encode (n : nat) (x : Z) : list Byte.byte :=
  match n with
  | O => []
  | S n' => byte_of x :: le_encode n' (x / 256)
  end.

Definition le_decode (l : list Byte.byte) : Z :=
  fold_right (fun b acc => Z.of_N (Byte.to_N b) + 256 * acc) 0 l.

(** An example layout of a cross event, for the examples only: 32 bytes,
    little endian; [t] at 0 (seconds, nanoseconds, reserved), [tstamp] at
    16, [flags] at 24; bit 0 of [flags] says that the cross-timestamp is
    valid and its upper 16 bits hold the delay. *)
Definition example_abi : cross_abi :=
  {| sizeof_event := 32;
     decode_event := fun b =>
       mk_event_cross
         (mk_pct (s64 (le_decode (firstn 8 b)))
                 (le_decode (firstn 4 (skipn 8 b)))
                 (le_decode (firstn 4 (skipn 12 b))))
         (s64 (le_decode (firstn 8 (skipn 16 b))))
         (le_decode (firstn 4 (skipn 24 b)));
     PTP_EVENT_CROSS := 1;
     PTP_EVENT_CROSS_DELAY := fun f => Z.shiftr f 16 |}.

Definition encode_event (ev : ptp_extts_event_cross) : list Byte.byte :=
  le_encode 8 (sec (t ev)) ++ le_encode 4 (nsec (t ev))
  ++ le_encode 4 (reserved (t ev)) ++ le_encode 8 (tstamp ev)
  ++ le_encode 4 (flags ev) ++ le_encode 4 0.

(** Three records back to back; the last one is valid, with a delay
    of 7. *)
Definition example_record_1 : list Byte.byte :=
  encode_event (mk_event_cross (mk_pct 1 0 0) 999999000 1).
Definition example_record_2 : list Byte.byte :=
  encode_event (mk_event_cross (mk_pct 1 1000000 0) 1000999500 0).
Definition example_record_3 : list Byte.byte :=
  encode_event (mk_event_cross (mk_pct 1 2000000 0) 1001999600 (1 + 7 * 65536)).

Definition example_stream : list Byte.byte :=
  example_record_1 ++ example_record_2 ++ example_record_3.

(** The start of a run: nothing logged, [buf] zeroed. *)
Definition start : state unit :=
  mk_state tt [] (repeat Byte.x00 (Z.to_nat sizeof_buf)).

Definition no_outs : outs := mk_outs 0 0 0.

(** ** Kinds of events and of devices *)

(** A control request. *)
Definition is_ioctl (e : event) : bool :=
  match e with
  | Ioctl _ _ => true
  | _ => false
  end.

(** An access to the event stream. *)
Definition is_stream (e : event) : bool :=
  match e with
  | Poll _ _ | Read _ _ => true
  | _ => false
  end.

(** A device that its control requests leave as it was, so that it
    answers the same request the same way again. *)
Definition stateless {W : Type} (drv : driver W) : Prop :=
  (forall fd w, snd (drv_precise drv fd w) = w) /\
  (forall fd n w, snd (drv_extended drv fd n w) = w) /\
  (forall fd n w, snd (drv_basic drv fd n w) = w) /\
  (forall fd p w, snd (drv_crossts drv fd p w) = w).

(** The method that the prober settles on, from the return values of the
    four requests in its order of priority. *)
Definition probe_choice (cross precise extended basic : Z) : Z :=
  if cross =? 0 then SYSOFF_CROSS
  else if precise =? 0 then SYSOFF_PRECISE
  else if extended =? 0 then SYSOFF_EXTENDED
  else if basic =? 0 then SYSOFF_BASIC
  else SYSOFF_RUN_TIME_MISSING.

(** The [n] samples that a basic-mode array holds, each with its own copy
    of the timestamps that it shares with its neighbours. *)
Definition triplets_of_basic (pct : list ptp_clock_time) (n : nat) : list sample :=
  map (fun i => (nth (2 * i) pct pct_zero,
                 nth (2 * i + 1) pct pct_zero,
                 nth (2 * i + 2) pct pct_zero))
      (seq 0 n).

(** * Properties *)

(** ** Fixed-width integers *)

Ltac int_unfold :=
  unfold add64, sub64, mul64, div64, rem64, s64, u64, u32, s32,
         in_s64, in_u64, in_u32, in_s32 in *;
  change (2 ^ 64) with 18446744073709551616 in *;
  change (2 ^ 63) with 9223372036854775808 in *;
  change (2 ^ 32) with 4294967296 in *;
  change (2 ^ 31) with 2147483648 in *.

Lemma s64_id (x : Z) : in_s64 x -> s64 x = x.
Proof. int_unfold. intros H. rewrite Z.mod_small; lia. Qed.

Lemma s64_range (x : Z) : in_s64 (s64 x).
Proof.
  int_unfold.
  pose proof (Z.mod_pos_bound (x + 9223372036854775808) 18446744073709551616).
  lia.
Qed.

Lemma u32_id (x : Z) : in_u32 x -> u32 x = x.
Proof. int_unfold. intros H. now rewrite Z.mod_small. Qed.

Lemma u64_id (x : Z) : in_u64 x -> u64 x = x.
Proof. int_unfold. intros H. now rewrite Z.mod_small. Qed.

(** The signed reading of the [uint64_t] that holds a signed value is that
    value. *)
Lemma s64_u64 (x : Z) : in_s64 x -> s64 (u64 x) = x.
Proof.
  int_unfold. intros H.
  destruct (Z_lt_le_dec x 0) as [Hn | Hp].
  - replace (x mod 18446744073709551616) with (x + 18446744073709551616).
    + replace (x + 18446744073709551616 + 9223372036854775808)
        with (x + 9223372036854775808 + 1 * 18446744073709551616) by lia.
      rewrite Z.mod_add by lia. rewrite Z.mod_small; lia.
    + apply Z.mod_unique with (q := -1); lia.
  - rewrite (Z.mod_small x) by lia. rewrite Z.mod_small; lia.
Qed.

Lemma sub64_range (a b : Z) : in_s64 (sub64 a b).
Proof. apply s64_range. Qed.

Lemma add64_exact (a b : Z) : in_s64 (a + b) -> add64 a b = a + b.
Proof. apply s64_id. Qed.

Lemma sub64_exact (a b : Z) : in_s64 (a - b) -> sub64 a b = a - b.
Proof. apply s64_id. Qed.

Lemma div64_2_exact (a : Z) : in_s64 a -> div64 a 2 = Z.quot a 2.
Proof.
  intros H. apply s64_id. revert H. int_unfold. intros H.
  destruct (Z_lt_le_dec a 0).
  - pose proof (Z.quot_le_mono a 0 2 ltac:(lia) ltac:(lia)) as H1.
    rewrite Z.quot_0_l in H1 by lia.
    assert (- (a ÷ 2) <= 9223372036854775808); [|lia].
    rewrite <- Z.quot_opp_l by lia.
    rewrite Z.quot_div_nonneg by lia.
    apply Z.div_le_upper_bound; lia.
  - rewrite Z.quot_div_nonneg by lia.
    pose proof (Z.div_pos a 2 ltac:(lia) ltac:(lia)).
    assert (a / 2 < 9223372036854775808); [|lia].
    apply Z.div_lt_upper_bound; lia.
Qed.

(** ** Time codec *)

(** Without overflow [pctns] is [sec * 1e9 + nsec]. *)
Lemma pctns_exact (t0 : ptp_clock_time) :
  0 <= sec t0 -> 0 <= nsec t0 < NS_PER_SEC ->
  sec t0 * NS_PER_SEC + nsec t0 < 2 ^ 63 ->
  pctns t0 = sec t0 * NS_PER_SEC + nsec t0.
Proof.
  unfold pctns, NS_PER_SEC. intros Hs Hn Hb.
  unfold add64, mul64.
  rewrite (s64_id (sec t0 * 1000000000)).
  - apply s64_id. int_unfold. lia.
  - int_unfold. lia.
Qed.

(** C7, as the spec states it, at a timestamp of the year 2262: seconds
    and nanoseconds are in range and non-negative, but the nanosecond count
    does not fit 64 bits and the seconds do not come back. *)
Lemma nspct_pctns_overflow :
  let t0 := mk_pct 9223372037 0 0 in
  pct_wf t0 /\ 0 <= sec t0 /\ 0 <= nsec t0 < NS_PER_SEC /\
  pctns t0 = -9223372036709551616 /\
  sec (nspct (pctns t0) t0) = -9223372036 /\
  nspct (pctns t0) t0 <> t0.
Proof.
  cbv zeta. repeat split; try (vm_compute; congruence).
Qed.

(** C7, amended: for every timestamp with non-negative seconds,
    nanoseconds in [0, 1e9) and a nanosecond count [sec * 1e9 + nsec] that
    fits a signed 64-bit integer, [nspct (pctns t)] gives back the seconds
    and the nanoseconds of [t], whatever structure it writes to, and is [t]
    itself when it writes to [t]. *)
Theorem nspct_pctns_roundtrip (t0 p : ptp_clock_time) :
  0 <= sec t0 -> 0 <= nsec t0 < NS_PER_SEC ->
  sec t0 * NS_PER_SEC + nsec t0 < 2 ^ 63 ->
  sec (nspct (pctns t0) p) = sec t0 /\
  nsec (nspct (pctns t0) p) = nsec t0 /\
  nspct (pctns t0) t0 = t0.
Proof.
  intros Hs Hn Hb.
  rewrite (pctns_exact t0 Hs Hn Hb).
  assert (Hq : (sec t0 * NS_PER_SEC + nsec t0) ÷ NS_PER_SEC = sec t0).
  { unfold NS_PER_SEC in *. rewrite Z.quot_div_nonneg by lia.
    symmetry. apply Z.div_unique with (r := nsec t0); lia. }
  assert (Hr : Z.rem (sec t0 * NS_PER_SEC + nsec t0) NS_PER_SEC = nsec t0).
  { unfold NS_PER_SEC in *. rewrite Z.rem_mod_nonneg by lia.
    symmetry. apply Z.mod_unique with (q := sec t0); lia. }
  assert (Hsec : div64 (sec t0 * NS_PER_SEC + nsec t0) NS_PER_SEC = sec t0).
  { unfold div64. rewrite Hq. apply s64_id.
    unfold NS_PER_SEC in *. int_unfold. lia. }
  assert (Hnsec : u32 (rem64 (sec t0 * NS_PER_SEC + nsec t0) NS_PER_SEC) = nsec t0).
  { unfold rem64. rewrite Hr. rewrite s64_id.
    - apply u32_id. unfold NS_PER_SEC in *. int_unfold. lia.
    - unfold NS_PER_SEC in *. int_unfold. lia. }
  unfold nspct; cbn [sec nsec reserved].
  rewrite Hsec, Hnsec. repeat split. now destruct t0.
Qed.

Lemma nspct_pctns_roundtrip_witness :
  let t0 := mk_pct 4 999999950 0 in
  sec (nspct (pctns t0) pct_zero) = 4 /\
  nsec (nspct (pctns t0) pct_zero) = 999999950 /\
  nspct (pctns t0) t0 = t0.
Proof.
  cbv zeta.
  apply (nspct_pctns_roundtrip (mk_pct 4 999999950 0) pct_zero);
    cbn [sec nsec]; unfold NS_PER_SEC; lia.
Defined.

(** ** The integer midpoint *)

Lemma interval_of_eq (t1 tp t2 : Z) : interval_of (t1, tp, t2) = sub64 t2 t1.
Proof. reflexivity. Qed.

Lemma mid_of_eq (t1 tp t2 : Z) : mid_of (t1, tp, t2) = div64 (add64 t2 t1) 2.
Proof. reflexivity. Qed.

Lemma offset_of_eq (t1 tp t2 : Z) :
  offset_of (t1, tp, t2) = sub64 (mid_of (t1, tp, t2)) tp.
Proof. reflexivity. Qed.

(** The loop body computes the same three values as the initialisation. *)
Lemma update_best_eq (acc : best) (b : Z * Z * Z) :
  update_best acc b =
  if interval_of b <? shortest_interval acc then first_best b else acc.
Proof. destruct b as [[t1 tp] t2]. reflexivity. Qed.

(** C9, as the spec states it, at a bracket before the epoch: the sum
    [after + before] is odd and the midpoint lies after the exact middle,
    not before it.  And at a bracket whose sum does not fit 64 bits: the
    midpoint is nowhere near the bracket. *)
Lemma midpoint_negative_rounds_later :
  (let before := -3 in
   let after := 0 in
   in_s64 before /\ in_s64 after /\
   Z.odd (after + before) = true /\
   mid_of (before, 0, after) = -1 /\
   2 * mid_of (before, 0, after) > after + before) /\
  (let before := 2 ^ 62 in
   let after := 2 ^ 62 + 1 in
   in_s64 before /\ in_s64 after /\
   Z.odd (after + before) = true /\
   mid_of (before, 0, after) = - (2 ^ 62) + 1).
Proof.
  cbv zeta. repeat split; try (vm_compute; congruence).
Qed.

(** C9, amended: for every bracket whose sum [after + before] fits a
    signed 64-bit integer, the midpoint is the sum halved with truncation
    toward zero: exact when the sum is even, half a nanosecond earlier than
    the exact middle when the sum is odd and positive, half a nanosecond
    later when the sum is odd and negative. *)
Theorem midpoint_truncates_toward_zero (before hw after : Z) :
  in_s64 (after + before) ->
  let s := after + before in
  let mid := mid_of (before, hw, after) in
  mid = Z.quot s 2 /\
  (Z.even s = true -> 2 * mid = s) /\
  (Z.odd s = true -> 0 <= s -> 2 * mid = s - 1) /\
  (Z.odd s = true -> s < 0 -> 2 * mid = s + 1).
Proof.
  intros Hr s mid. subst s mid.
  rewrite mid_of_eq, add64_exact by assumption.
  rewrite div64_2_exact by assumption.
  set (s := after + before) in *. clearbody s.
  pose proof (Z.quot_rem' s 2) as Hqr.
  pose proof (Z.rem_bound_pos s 2) as Hpos.
  pose proof (Z.rem_bound_pos_neg s 2) as Hneg.
  assert (Hev : Z.even s = true -> Z.rem s 2 = 0).
  { intros He. apply Z.even_spec in He as [k Hk]. rewrite Hk.
    rewrite Z.mul_comm. apply Z.rem_mul. lia. }
  assert (Hod : Z.odd s = true -> Z.rem s 2 <> 0).
  { intros Ho Hz. rewrite <- Z.negb_even in Ho.
    assert (Z.even s = true); [|destruct (Z.even s); discriminate].
    apply Z.even_spec. exists (Z.quot s 2). lia. }
  split; [reflexivity|]. split; [|split].
  - intros He. specialize (Hev He). lia.
  - intros Ho Hs. specialize (Hod Ho). lia.
  - intros Ho Hs. specialize (Hod Ho). lia.
Qed.

Lemma midpoint_truncates_toward_zero_witness :
  let s := 1100 + 1000 in
  let mid := mid_of (1000, 1040, 1100) in
  mid = Z.quot s 2 /\
  (Z.even s = true -> 2 * mid = s) /\
  (Z.odd s = true -> 0 <= s -> 2 * mid = s - 1) /\
  (Z.odd s = true -> s < 0 -> 2 * mid = s + 1).
Proof.
  apply (midpoint_truncates_toward_zero 1000 1040 1100).
  int_unfold. lia.
Defined.

(** ** The selector on a list of brackets *)

Module SelectorFacts.

Import Selector.

Lemma scan_keeps (acc : best) (l : list (Z * Z * Z)) :
  Forall (fun y => shortest_interval acc <= interval_of y) l ->
  scan acc l = acc.
Proof.
  unfold scan. induction 1 as [| y l Hy _ IH]; cbn [fold_left].
  - reflexivity.
  - rewrite update_best_eq.
    destruct (Z.ltb_spec (interval_of y) (shortest_interval acc)); [lia|].
    exact IH.
Qed.

Lemma scan_takes (l1 : list (Z * Z * Z)) :
  forall (acc : best) (x : Z * Z * Z) (l2 : list (Z * Z * Z)),
  interval_of x < shortest_interval acc ->
  first_min l1 x l2 ->
  scan acc (l1 ++ x :: l2) = first_best x.
Proof.
  unfold scan, first_min.
  induction l1 as [| y l1 IH]; intros acc x l2 Hx [H1 H2]; cbn [app fold_left].
  - rewrite update_best_eq.
    destruct (Z.ltb_spec (interval_of x) (shortest_interval acc)); [|lia].
    apply scan_keeps. exact H2.
  - inversion H1 as [| ? ? Hy H1']; subst.
    apply IH; [|split; assumption].
    rewrite update_best_eq.
    destruct (Z.ltb_spec (interval_of y) (shortest_interval acc)).
    + exact Hy.
    + exact Hx.
Qed.

(** The selector returns the first bracket of smallest interval. *)
Lemma select_first_min (l1 : list (Z * Z * Z)) (x : Z * Z * Z)
    (l2 : list (Z * Z * Z)) :
  first_min l1 x l2 -> select (l1 ++ x :: l2) = Some (first_best x).
Proof.
  intros Hm. destruct l1 as [| b0 l1]; cbn [app select]; f_equal.
  - apply scan_keeps. apply Hm.
  - destruct Hm as [H1 H2]. inversion H1 as [| ? ? Hb H1']; subst.
    apply scan_takes; [exact Hb | split; assumption].
Qed.

(** Every non-empty batch has such a first bracket of smallest interval. *)
Lemma first_min_exists (l : list (Z * Z * Z)) :
  l <> [] -> exists l1 x l2, l = l1 ++ x :: l2 /\ first_min l1 x l2.
Proof.
  induction l as [| b l IH]; [congruence|]. intros _.
  destruct l as [| b' l'].
  - exists [], b, []. split; [reflexivity|]. split; constructor.
  - destruct IH as (l1 & x & l2 & El & H1 & H2); [congruence|].
    destruct (Z_le_gt_dec (interval_of b) (interval_of x)) as [Hle | Hgt].
    + exists [], b, (b' :: l'). split; [reflexivity|].
      split; [constructor|]. rewrite El.
      apply Forall_app. split.
      * eapply Forall_impl; [|exact H1]. cbn beta. intros; lia.
      * constructor; [exact Hle|].
        eapply Forall_impl; [|exact H2]. cbn beta. intros; lia.
    + exists (b :: l1), x, l2. split; [now rewrite El|].
      split; [constructor; [lia | exact H1] | exact H2].
Qed.

Lemma fold_min_le (l : list Z) :
  forall m, fold_left Z.min l m <= m /\ Forall (fun y => fold_left Z.min l m <= y) l.
Proof.
  induction l as [| y l IH]; intros m; cbn [fold_left].
  - split; [lia | constructor].
  - destruct (IH (Z.min m y)) as [Ha Hb]. split; [lia|].
    constructor; [lia | exact Hb].
Qed.

Lemma fold_min_in (l : list Z) :
  forall m, fold_left Z.min l m = m \/ In (fold_left Z.min l m) l.
Proof.
  induction l as [| y l IH]; intros m; cbn [fold_left].
  - now left.
  - destruct (IH (Z.min m y)) as [He | Hi].
    + rewrite He. destruct (Z.min_spec m y) as [[_ E] | [_ E]]; rewrite E.
      * now left.
      * right. now left.
    + right. now right.
Qed.

Lemma first_min_interval (l1 : list (Z * Z * Z)) (x : Z * Z * Z)
    (l2 : list (Z * Z * Z)) :
  first_min l1 x l2 -> min_interval (l1 ++ x :: l2) = interval_of x.
Proof.
  intros [H1 H2].
  assert (Hall : Forall (fun y => interval_of x <= interval_of y) (l1 ++ x :: l2)).
  { apply Forall_app. split.
    - eapply Forall_impl; [|exact H1]. cbn beta. intros; lia.
    - constructor; [lia | exact H2]. }
  assert (Hin : In x (l1 ++ x :: l2)) by (apply in_or_app; right; now left).
  destruct (l1 ++ x :: l2) as [| b0 r]; [contradiction|].
  cbn [min_interval].
  destruct (fold_min_le (map interval_of r) (interval_of b0)) as [Ha Hb].
  rewrite Forall_map in Hb.
  assert (Hlow : fold_left Z.min (map interval_of r) (interval_of b0) <= interval_of x).
  { destruct Hin as [-> | Hin]; [exact Ha|].
    rewrite Forall_forall in Hb. exact (Hb x Hin). }
  assert (Hup : interval_of x <= fold_left Z.min (map interval_of r) (interval_of b0)).
  { inversion Hall as [| ? ? Hb0 Hr]; subst.
    destruct (fold_min_in (map interval_of r) (interval_of b0)) as [-> | Hi].
    - exact Hb0.
    - apply in_map_iff in Hi as (y & <- & Hy).
      rewrite Forall_forall in Hr. exact (Hr y Hy). }
  lia.
Qed.

Lemma insert_at_app_l {A : Type} (k : nat) (s : A) (l1 l2 : list A) :
  (k <= length l1)%nat ->
  insert_at k s (l1 ++ l2) = insert_at k s l1 ++ l2.
Proof.
  intros Hk. unfold insert_at.
  rewrite firstn_app, skipn_app.
  replace (k - length l1)%nat with 0%nat by lia.
  cbn [firstn skipn]. rewrite app_nil_r, <- app_assoc. reflexivity.
Qed.

Lemma insert_at_app_r {A : Type} (k : nat) (s : A) (l1 l2 : list A) :
  (length l1 <= k)%nat ->
  insert_at k s (l1 ++ l2) = l1 ++ insert_at (k - length l1) s l2.
Proof.
  intros Hk. unfold insert_at.
  rewrite firstn_app, skipn_app.
  rewrite firstn_all2 by lia. rewrite skipn_all2 by lia.
  cbn [app]. rewrite <- app_assoc. reflexivity.
Qed.

Lemma Forall_insert_at {A : Type} (P : A -> Prop) (k : nat) (s : A) (l : list A) :
  P s -> Forall P l -> Forall P (insert_at k s l).
Proof.
  intros Hs Hl. unfold insert_at.
  rewrite <- (firstn_skipn k l) in Hl. apply Forall_app in Hl as [Ha Hb].
  apply Forall_app. split; [exact Ha | constructor; assumption].
Qed.

(** A strictly wider bracket put anywhere in a non-empty batch does not
    change what the selector returns. *)
Lemma select_insert_wider (l : list (Z * Z * Z)) (s : Z * Z * Z) (k : nat) :
  l <> [] -> min_interval l < interval_of s ->
  select (insert_at k s l) = select l /\ select l <> None.
Proof.
  intros Hne Hw.
  destruct (first_min_exists l Hne) as (l1 & x & l2 & -> & Hm).
  rewrite (first_min_interval _ _ _ Hm) in Hw.
  rewrite (select_first_min _ _ _ Hm). split; [|discriminate].
  destruct Hm as [H1 H2].
  destruct (Nat.le_gt_cases k (length l1)) as [Hk | Hk].
  - rewrite insert_at_app_l by exact Hk.
    apply select_first_min. split; [|exact H2].
    apply Forall_insert_at; assumption.
  - rewrite insert_at_app_r by lia.
    replace (k - length l1)%nat with (S (k - length l1 - 1)) by lia.
    unfold insert_at at 1. cbn [firstn skipn app].
    change (x :: firstn (k - length l1 - 1) l2 ++ s :: skipn (k - length l1 - 1) l2)
      with (x :: insert_at (k - length l1 - 1) s l2).
    apply select_first_min. split; [exact H1|].
    apply Forall_insert_at; [lia | exact H2].
Qed.

End SelectorFacts.

(** ** [sysoff_estimate] and the selector *)

Lemma at_index_nonneg (pct : list ptp_clock_time) (i : Z) :
  0 <= i -> at_index pct i = nth_error pct (Z.to_nat i).
Proof.
  intros Hi. unfold at_index.
  destruct (Z.ltb_spec i 0); [lia | reflexivity].
Qed.

Lemma read_bracket_sample (pct : list ptp_clock_time) (extended i : Z)
    (b : Z * Z * Z) :
  0 <= i -> (read_bracket pct extended i = Some b <-> sample_at pct extended i b).
Proof.
  intros Hi. unfold read_bracket, sample_at, stride.
  destruct (extended =? 0); cbn [negb];
    rewrite !at_index_nonneg by lia.
  - destruct (nth_error pct (Z.to_nat (2 * i))) as [a|];
      destruct (nth_error pct (Z.to_nat (2 * i + 1))) as [p|];
      destruct (nth_error pct (Z.to_nat (2 * i + 2))) as [c|];
      split; try discriminate;
      try (intros (a' & p' & c' & Ha & Hp & Hc & E); discriminate).
    + intros E. injection E as <-. now exists a, p, c.
    + intros (a' & p' & c' & Ha & Hp & Hc & E). congruence.
  - destruct (nth_error pct (Z.to_nat (3 * i))) as [a|];
      destruct (nth_error pct (Z.to_nat (3 * i + 1))) as [p|];
      destruct (nth_error pct (Z.to_nat (3 * i + 2))) as [c|];
      split; try discriminate;
      try (intros (a' & p' & c' & Ha & Hp & Hc & E); discriminate).
    + intros E. injection E as <-. now exists a, p, c.
    + intros (a' & p' & c' & Ha & Hp & Hc & E). congruence.
Qed.

Lemma nth_error_defined {A : Type} (l : list A) (n : nat) :
  (n < length l)%nat -> exists x, nth_error l n = Some x.
Proof.
  intros H. destruct (nth_error l n) eqn:E; [eauto|].
  apply nth_error_None in E. lia.
Qed.

Lemma read_bracket_defined (pct : list ptp_clock_time) (extended i : Z) :
  0 <= i -> stride extended * i + 2 < Z.of_nat (length pct) ->
  exists b, read_bracket pct extended i = Some b.
Proof.
  intros Hi Hl.
  assert (Hs : 2 <= stride extended <= 3)
    by (unfold stride; destruct (extended =? 0); lia).
  destruct (nth_error_defined pct (Z.to_nat (stride extended * i))) as [a Ha]; [nia|].
  destruct (nth_error_defined pct (Z.to_nat (stride extended * i + 1))) as [p Hp]; [nia|].
  destruct (nth_error_defined pct (Z.to_nat (stride extended * i + 2))) as [c Hc]; [nia|].
  exists (pctns a, pctns p, pctns c).
  apply read_bracket_sample; [exact Hi|]. now exists a, p, c.
Qed.

Lemma brackets_defined (pct : list ptp_clock_time) (extended : Z) (count : nat) :
  forall i, 0 <= i ->
  stride extended * (i + Z.of_nat count - 1) + 2 < Z.of_nat (length pct) ->
  exists l, brackets pct extended count i = Some l.
Proof.
  assert (Hs : 2 <= stride extended <= 3)
    by (unfold stride; destruct (extended =? 0); lia).
  induction count as [| count IH]; intros i Hi Hl; cbn [brackets].
  - now exists [].
  - destruct (read_bracket_defined pct extended i Hi) as [b ->]; [nia|].
    destruct (IH (i + 1)) as [r ->]; [lia | nia |]. now exists (b :: r).
Qed.

Lemma brackets_nth (pct : list ptp_clock_time) (extended : Z) (count : nat) :
  forall i l, brackets pct extended count i = Some l ->
  length l = count /\
  forall j, (j < count)%nat ->
            nth_error l j = read_bracket pct extended (i + Z.of_nat j).
Proof.
  induction count as [| count IH]; intros i l; cbn [brackets].
  - intros E. injection E as <-. split; [reflexivity | intros; lia].
  - destruct (read_bracket pct extended i) as [b|] eqn:Eb; [|discriminate].
    destruct (brackets pct extended count (i + 1)) as [r|] eqn:Er; [|discriminate].
    intros E. injection E as <-.
    destruct (IH _ _ Er) as [Hlen Hnth]. split; [cbn; now rewrite Hlen|].
    intros [| j] Hj; cbn [nth_error].
    + now rewrite Z.add_0_r.
    + rewrite Hnth by lia. f_equal. lia.
Qed.

Lemma estimate_loop_scan (pct : list ptp_clock_time) (extended : Z) (count : nat) :
  forall i l acc, brackets pct extended count i = Some l ->
  estimate_loop pct extended count i acc = Some (Selector.scan acc l).
Proof.
  induction count as [| count IH]; intros i l acc; cbn [brackets estimate_loop].
  - intros E. now injection E as <-.
  - destruct (read_bracket pct extended i) as [b|]; [|discriminate].
    destruct (brackets pct extended count (i + 1)) as [r|] eqn:Er; [|discriminate].
    intros E. injection E as <-. exact (IH _ _ _ Er).
Qed.

(** [sysoff_estimate] on [n >= 1] samples is the selector on their
    brackets. *)
Lemma sysoff_estimate_select (pct : list ptp_clock_time) (extended n : Z)
    (l : list (Z * Z * Z)) :
  1 <= n -> brackets pct extended (Z.to_nat n) 0 = Some l ->
  sysoff_estimate pct extended n = option_map to_estimate (Selector.select l).
Proof.
  intros Hn. replace (Z.to_nat n) with (S (Z.to_nat (n - 1))) by lia.
  cbn [brackets]. unfold sysoff_estimate.
  destruct (read_bracket pct extended 0) as [b0|]; [|discriminate].
  change (0 + 1) with 1.
  destruct (brackets pct extended (Z.to_nat (n - 1)) 1) as [r|] eqn:Er; [|discriminate].
  intros E. injection E as <-.
  rewrite (estimate_loop_scan _ _ _ _ _ _ Er). reflexivity.
Qed.

(** C1: on [n >= 1] samples held by an array that is long enough ([3n]
    timestamps in extended mode, [2n + 1] in basic mode), [sysoff_estimate]
    returns, for some sample [k] read at the indices [3k, 3k+1, 3k+2]
    (extended) or [2k, 2k+1, 2k+2] (basic), the offset [mid - hw], the
    timestamp [mid] and the delay [after - before], where
    [mid = (after + before) / 2] truncated; no sample has a smaller interval
    than sample [k] and every sample before it has a strictly larger one. *)
Theorem sysoff_estimate_first_narrowest
    (pct : list ptp_clock_time) (extended n : Z) :
  1 <= n ->
  stride extended * (n - 1) + 2 < Z.of_nat (length pct) ->
  exists k before hw after,
    0 <= k < n /\
    sample_at pct extended k (before, hw, after) /\
    let mid := div64 (add64 after before) 2 in
    sysoff_estimate pct extended n =
      Some (mk_estimate (sub64 mid hw) (u64 mid) (sub64 after before)) /\
    s64 (u64 mid) = mid /\
    (forall j b, 0 <= j < n -> sample_at pct extended j b ->
                 sub64 after before <= interval_of b) /\
    (forall j b, 0 <= j < k -> sample_at pct extended j b ->
                 sub64 after before < interval_of b).
Proof.
  intros Hn Hlen.
  destruct (brackets_defined pct extended (Z.to_nat n) 0) as [l Hl]; [lia| |].
  { rewrite Z2Nat.id by lia. exact Hlen. }
  destruct (brackets_nth _ _ _ _ _ Hl) as [Hlength Hnth].
  assert (Hne : l <> []) by (intros ->; cbn in Hlength; lia).
  destruct (SelectorFacts.first_min_exists l Hne) as (l1 & x & l2 & -> & Hm).
  rewrite length_app in Hlength. cbn [length] in Hlength.
  destruct x as [[before hw] after].
  exists (Z.of_nat (length l1)), before, hw, after.
  assert (Hk : nth_error (l1 ++ (before, hw, after) :: l2) (length l1)
               = Some (before, hw, after)).
  { rewrite nth_error_app2 by lia. now rewrite Nat.sub_diag. }
  split; [lia|]. split.
  { apply read_bracket_sample; [lia|].
    rewrite <- Hk. symmetry. rewrite Hnth by lia. reflexivity. }
  cbv zeta. split.
  { rewrite (sysoff_estimate_select _ _ _ _ Hn Hl).
    rewrite (SelectorFacts.select_first_min _ _ _ Hm). reflexivity. }
  split.
  { apply s64_u64. apply s64_range. }
  destruct Hm as [H1 H2]. rewrite Forall_forall in H1, H2.
  assert (Hget : forall j b, 0 <= j < n -> sample_at pct extended j b ->
                 nth_error (l1 ++ (before, hw, after) :: l2) (Z.to_nat j) = Some b).
  { intros j b Hj Hs. apply read_bracket_sample in Hs; [|lia].
    rewrite Hnth by lia. rewrite Z2Nat.id by lia. exact Hs. }
  change (sub64 after before) with (interval_of (before, hw, after)).
  split.
  - intros j b Hj Hs. specialize (Hget j b Hj Hs).
    apply nth_error_In in Hget. apply in_app_or in Hget as [Hi | [<- | Hi]].
    + specialize (H1 b Hi). lia.
    + lia.
    + exact (H2 b Hi).
  - intros j b Hj Hs. specialize (Hget j b ltac:(lia) Hs).
    rewrite nth_error_app1 in Hget by lia.
    apply nth_error_In in Hget. exact (H1 b Hget).
Qed.

Example sysoff_estimate_example :
  sysoff_estimate example_pct 1 2 = Some (mk_estimate 10 1050 100).
Proof. reflexivity. Qed.

(** The spec's overlapping example: timestamps 0, 10, 20, 35, 50 hold the
    two brackets (0, 10, 20) and (20, 35, 50). *)
Example sysoff_estimate_overlapping :
  let pct := [mk_pct 0 0 0; mk_pct 0 10 0; mk_pct 0 20 0; mk_pct 0 35 0;
              mk_pct 0 50 0] in
  brackets pct 0 2 0 = Some [(0, 10, 20); (20, 35, 50)] /\
  sysoff_estimate pct 0 2 = Some (mk_estimate 0 10 20).
Proof. split; reflexivity. Qed.

Lemma sysoff_estimate_first_narrowest_witness :
  exists k before hw after,
    0 <= k < 2 /\
    sample_at example_pct 1 k (before, hw, after) /\
    let mid := div64 (add64 after before) 2 in
    sysoff_estimate example_pct 1 2 =
      Some (mk_estimate (sub64 mid hw) (u64 mid) (sub64 after before)) /\
    s64 (u64 mid) = mid /\
    (forall j b, 0 <= j < 2 -> sample_at example_pct 1 j b ->
                 sub64 after before <= interval_of b) /\
    (forall j b, 0 <= j < k -> sample_at example_pct 1 j b ->
                 sub64 after before < interval_of b).
Proof.
  apply (sysoff_estimate_first_narrowest example_pct 1 2).
  - lia.
  - cbn. lia.
Defined.

(** ** Inserting a wider sample *)

Lemma layout_extended_nth (l : list sample) :
  forall j a p c, nth_error l j = Some (a, p, c) ->
  nth_error (layout_extended l) (3 * j) = Some a /\
  nth_error (layout_extended l) (3 * j + 1) = Some p /\
  nth_error (layout_extended l) (3 * j + 2) = Some c.
Proof.
  induction l as [| [[a0 p0] c0] l IH]; intros j a p c.
  - destruct j; discriminate.
  - destruct j as [| j]; cbn [nth_error].
    + intros E. injection E as <- <- <-. now cbn.
    + intros E. destruct (IH _ _ _ _ E) as (Ha & Hp & Hc).
      replace (3 * S j)%nat with (S (S (S (3 * j)))) by lia.
      cbn [layout_extended flat_map app plus nth_error Nat.add].
      exact (conj Ha (conj Hp Hc)).
Qed.

Lemma read_bracket_layout (l : list sample) (j : nat) (s : sample) :
  nth_error l j = Some s ->
  read_bracket (layout_extended l) 1 (Z.of_nat j) = Some (bracket_of s).
Proof.
  destruct s as [[a p] c]. intros E.
  destruct (layout_extended_nth l j a p c E) as (Ha & Hp & Hc).
  apply read_bracket_sample; [lia|]. exists a, p, c.
  change (stride 1) with 3.
  replace (Z.to_nat (3 * Z.of_nat j)) with (3 * j)%nat by lia.
  replace (Z.to_nat (3 * Z.of_nat j + 1)) with (3 * j + 1)%nat by lia.
  replace (Z.to_nat (3 * Z.of_nat j + 2)) with (3 * j + 2)%nat by lia.
  auto.
Qed.

Lemma brackets_ext (pct : list ptp_clock_time) (extended : Z) (count : nat) :
  forall i l, length l = count ->
  (forall j, (j < count)%nat ->
             read_bracket pct extended (i + Z.of_nat j) = nth_error l j) ->
  brackets pct extended count i = Some l.
Proof.
  induction count as [| count IH]; intros i l Hlen Hnth; cbn [brackets].
  - destruct l; [reflexivity | discriminate].
  - destruct l as [| b r]; [discriminate|].
    pose proof (Hnth 0%nat ltac:(lia)) as H0.
    rewrite Z.add_0_r in H0. cbn [nth_error] in H0. rewrite H0.
    rewrite (IH (i + 1) r); [reflexivity | cbn in Hlen; lia |].
    intros j Hj. specialize (Hnth (S j) ltac:(lia)). cbn [nth_error] in Hnth.
    rewrite <- Hnth. f_equal. lia.
Qed.

Lemma brackets_layout (l : list sample) :
  brackets (layout_extended l) 1 (length l) 0 = Some (map bracket_of l).
Proof.
  apply brackets_ext; [apply length_map|].
  intros j Hj. cbn [Z.add].
  destruct (nth_error_defined l j Hj) as [s Hs].
  rewrite (read_bracket_layout l j s Hs).
  rewrite nth_error_map, Hs. reflexivity.
Qed.

Lemma map_insert_at {A B : Type} (f : A -> B) (k : nat) (s : A) (l : list A) :
  map f (Selector.insert_at k s l) = Selector.insert_at k (f s) (map f l).
Proof.
  unfold Selector.insert_at.
  rewrite map_app. cbn [map]. now rewrite firstn_map, skipn_map.
Qed.

Lemma length_insert_at {A : Type} (k : nat) (s : A) (l : list A) :
  length (Selector.insert_at k s l) = S (length l).
Proof.
  unfold Selector.insert_at. rewrite length_app. cbn [length].
  rewrite <- (firstn_skipn k l) at 3. rewrite length_app. lia.
Qed.

(** C2: for a non-empty sequence of samples and a sample [s] whose interval
    is strictly larger than the smallest interval of the sequence,
    [sysoff_estimate] returns the same offset, timestamp and delay on the
    sequence and on the sequence with [s] put at any position [k]. *)
Theorem sysoff_estimate_insert_wider (l : list sample) (s : sample) (k : nat) :
  l <> [] ->
  Selector.min_interval (map bracket_of l) < interval_of (bracket_of s) ->
  exists r,
    sysoff_estimate (layout_extended l) 1 (Z.of_nat (length l)) = Some r /\
    sysoff_estimate (layout_extended (Selector.insert_at k s l)) 1
                    (Z.of_nat (length l) + 1) = Some r.
Proof.
  intros Hne Hw.
  assert (Hpos : (0 < length l)%nat) by (destruct l; [congruence | cbn; lia]).
  assert (Hne' : map bracket_of l <> []) by (destruct l; [congruence | discriminate]).
  destruct (SelectorFacts.select_insert_wider _ _ k Hne' Hw) as [Heq Hsome].
  destruct (Selector.select (map bracket_of l)) as [acc|] eqn:Esel; [|congruence].
  exists (to_estimate acc). split.
  - rewrite (sysoff_estimate_select _ _ _ (map bracket_of l)); [now rewrite Esel | lia |].
    rewrite Nat2Z.id. apply brackets_layout.
  - rewrite (sysoff_estimate_select _ _ _
               (Selector.insert_at k (bracket_of s) (map bracket_of l)));
      [now rewrite Heq | lia |].
    replace (Z.to_nat (Z.of_nat (length l) + 1))
      with (length (Selector.insert_at k s l)) by (rewrite length_insert_at; lia).
    rewrite <- map_insert_at. apply brackets_layout.
Qed.

Lemma sysoff_estimate_insert_wider_witness :
  exists r,
    sysoff_estimate (layout_extended example_samples) 1 2 = Some r /\
    sysoff_estimate
      (layout_extended
         (Selector.insert_at 1 (mk_pct 0 500 0, mk_pct 0 600 0, mk_pct 0 700 0)
                             example_samples)) 1 (2 + 1) = Some r.
Proof.
  apply (sysoff_estimate_insert_wider example_samples
           (mk_pct 0 500 0, mk_pct 0 600 0, mk_pct 0 700 0) 1).
  - discriminate.
  - vm_compute. reflexivity.
Defined.

(** ** Running the samplers *)

Lemma length_overwrite {A : Type} (dst src : list A) :
  length (overwrite dst src) = length dst.
Proof.
  unfold overwrite. rewrite length_firstn, length_app, length_skipn. lia.
Qed.

Lemma length_ts_extended (written : list ptp_clock_time) :
  length (ts_extended written) = 75%nat.
Proof. unfold ts_extended. rewrite length_overwrite, repeat_length. reflexivity. Qed.

Lemma length_ts_basic (written : list ptp_clock_time) :
  length (ts_basic written) = 51%nat.
Proof. unfold ts_basic. rewrite length_overwrite, repeat_length. reflexivity. Qed.

(** With [n_samples <= 1] the loop body does not run: the result is that of
    the first bracket. *)
Lemma sysoff_estimate_le_1 (pct : list ptp_clock_time) (extended n : Z) :
  n <= 1 ->
  sysoff_estimate pct extended n =
  option_map (fun b => to_estimate (first_best b)) (read_bracket pct extended 0).
Proof.
  intros Hn. unfold sysoff_estimate.
  replace (Z.to_nat (n - 1)) with 0%nat by lia.
  destruct (read_bracket pct extended 0); reflexivity.
Qed.

(** The first bracket is made of the first three timestamps in both
    modes. *)
Lemma read_bracket_0 (pct : list ptp_clock_time) (extended : Z) :
  read_bracket pct extended 0 =
  match pct with
  | a :: p :: c :: _ => Some (pctns a, pctns p, pctns c)
  | _ => None
  end.
Proof.
  unfold read_bracket.
  destruct (extended =? 0); cbn [negb];
    destruct pct as [| a [| p [| c r]]]; reflexivity.
Qed.

(** [sysoff_estimate] has a result whenever the array holds the samples it
    is asked to read. *)
Lemma sysoff_estimate_defined (pct : list ptp_clock_time) (extended n : Z) :
  stride extended * (Z.max n 1 - 1) + 2 < Z.of_nat (length pct) ->
  exists e, sysoff_estimate pct extended n = Some e.
Proof.
  intros Hlen. destruct (Z_le_gt_dec n 1) as [Hn | Hn].
  - rewrite sysoff_estimate_le_1 by exact Hn.
    replace (Z.max n 1 - 1) with 0 in Hlen by lia.
    destruct (read_bracket_defined pct extended 0) as [b ->]; [lia | lia |].
    cbn [option_map]. eauto.
  - replace (Z.max n 1) with n in Hlen by lia.
    destruct (brackets_defined pct extended (Z.to_nat n) 0) as [l Hl]; [lia | |].
    { rewrite Z2Nat.id by lia. exact Hlen. }
    rewrite (sysoff_estimate_select _ _ _ l) by (lia || exact Hl).
    destruct (brackets_nth _ _ _ _ _ Hl) as [Hlength _].
    destruct l as [| b0 r]; [cbn in Hlength; lia|].
    cbn [Selector.select option_map]. eauto.
Qed.

Section Running.

Context {W : Type}.
Variable drv : driver W.
Variable abi : cross_abi.

Local Open Scope string_scope.
Local Open Scope list_scope.
Local Open Scope Z_scope.

Local Abbreviation state := (state W).

Lemma after_after (s : state) (w1 w2 : W) (es1 es2 : list event) :
  after (after s w1 es1) w2 es2 = after s w2 (es1 ++ es2).
Proof. unfold after. cbn. now rewrite app_assoc. Qed.

Lemma ioctl_run {A : Type} (fd : Z) (r : request) (f : W -> Z * A * W)
    (s : state) (rc : Z) (a : A) (w' : W) :
  f (world s) = (rc, a, w') ->
  ioctl fd r f s = Some ((rc, a), after s w' [Ioctl fd r]).
Proof.
  intros E. unfold ioctl, bind, emit, on_world. cbn. rewrite E. reflexivity.
Qed.

Lemma pr_debug_run (fmt : string) (s : state) :
  pr_debug drv fmt s = Some (tt, after s (world s) [PrDebug fmt (drv_errno drv (world s))]).
Proof. reflexivity. Qed.

Lemma perror_run (msg : string) (s : state) :
  perror drv msg s = Some (tt, after s (world s) [Perror msg (drv_errno drv (world s))]).
Proof. reflexivity. Qed.

(** *** Precise *)

Lemma sysoff_precise_ok (fd : Z) (o : outs) (s : state)
    (pso : ptp_sys_offset_precise) (w' : W) :
  drv_precise drv fd (world s) = (0, pso, w') ->
  sysoff_precise drv fd o s =
  Some ((SYSOFF_PRECISE,
         mk_outs (sub64 (pctns (sys_realtime pso)) (pctns (device pso)))
                 (u64 (pctns (sys_realtime pso))) (o_delay o)),
        after s w' [Ioctl fd PTP_SYS_OFFSET_PRECISE]).
Proof.
  intros E. unfold sysoff_precise, bind.
  rewrite (ioctl_run _ _ _ _ _ _ _ E). reflexivity.
Qed.

Lemma sysoff_precise_fail (fd : Z) (o : outs) (s : state)
    (rc : Z) (pso : ptp_sys_offset_precise) (w' : W) :
  drv_precise drv fd (world s) = (rc, pso, w') -> rc <> 0 ->
  sysoff_precise drv fd o s =
  Some ((SYSOFF_RUN_TIME_MISSING, o),
        after s w' [Ioctl fd PTP_SYS_OFFSET_PRECISE;
                    PrDebug "ioctl PTP_SYS_OFFSET_PRECISE: %m" (drv_errno drv w')]).
Proof.
  intros E Hrc. unfold sysoff_precise, bind.
  rewrite (ioctl_run _ _ _ _ _ _ _ E).
  apply Z.eqb_neq in Hrc. rewrite Hrc. cbn [negb].
  rewrite pr_debug_run. cbn [ret]. rewrite after_after. reflexivity.
Qed.

(** *** Extended and Basic *)

Lemma sysoff_extended_ok (fd n : Z) (o : outs) (s : state)
    (written : list ptp_clock_time) (w' : W) (e : estimate) :
  drv_extended drv fd (u32 n) (world s) = (0, written, w') ->
  sysoff_estimate (ts_extended written) 1 n = Some e ->
  sysoff_extended drv fd n o s =
  Some ((SYSOFF_EXTENDED, outs_of e),
        after s w' [Ioctl fd (PTP_SYS_OFFSET_EXTENDED (u32 n))]).
Proof.
  intros E He. unfold sysoff_extended, bind.
  rewrite (ioctl_run _ _ _ _ _ _ _ E). cbn [Z.eqb negb].
  rewrite He. reflexivity.
Qed.

Lemma sysoff_extended_fail (fd n : Z) (o : outs) (s : state)
    (rc : Z) (written : list ptp_clock_time) (w' : W) :
  drv_extended drv fd (u32 n) (world s) = (rc, written, w') -> rc <> 0 ->
  sysoff_extended drv fd n o s =
  Some ((SYSOFF_RUN_TIME_MISSING, o),
        after s w' [Ioctl fd (PTP_SYS_OFFSET_EXTENDED (u32 n));
                    PrDebug "ioctl PTP_SYS_OFFSET_EXTENDED: %m" (drv_errno drv w')]).
Proof.
  intros E Hrc. unfold sysoff_extended, bind.
  rewrite (ioctl_run _ _ _ _ _ _ _ E).
  apply Z.eqb_neq in Hrc. rewrite Hrc. cbn [negb].
  rewrite pr_debug_run. cbn [ret]. rewrite after_after. reflexivity.
Qed.

Lemma sysoff_basic_ok (fd n : Z) (o : outs) (s : state)
    (written : list ptp_clock_time) (w' : W) (e : estimate) :
  drv_basic drv fd (u32 n) (world s) = (0, written, w') ->
  sysoff_estimate (ts_basic written) 0 n = Some e ->
  sysoff_basic drv fd n o s =
  Some ((SYSOFF_BASIC, outs_of e),
        after s w' [Ioctl fd (PTP_SYS_OFFSET (u32 n))]).
Proof.
  intros E He. unfold sysoff_basic, bind.
  rewrite (ioctl_run _ _ _ _ _ _ _ E). cbn [Z.eqb negb].
  rewrite He. reflexivity.
Qed.

Lemma sysoff_basic_fail (fd n : Z) (o : outs) (s : state)
    (rc : Z) (written : list ptp_clock_time) (w' : W) :
  drv_basic drv fd (u32 n) (world s) = (rc, written, w') -> rc <> 0 ->
  sysoff_basic drv fd n o s =
  Some ((SYSOFF_RUN_TIME_MISSING, o),
        after s w' [Ioctl fd (PTP_SYS_OFFSET (u32 n));
                    Perror "ioctl PTP_SYS_OFFSET" (drv_errno drv w')]).
Proof.
  intros E Hrc. unfold sysoff_basic, bind.
  rewrite (ioctl_run _ _ _ _ _ _ _ E).
  apply Z.eqb_neq in Hrc. rewrite Hrc. cbn [negb].
  rewrite perror_run. cbn [ret]. rewrite after_after. reflexivity.
Qed.

(** Within the sample count that [sysoff_probe] lets through, the fixed
    arrays of the two request structures hold every sample that
    [sysoff_estimate] reads. *)
Lemma estimate_extended_defined (written : list ptp_clock_time) (n : Z) :
  n <= PTP_MAX_SAMPLES ->
  exists e, sysoff_estimate (ts_extended written) 1 n = Some e.
Proof.
  intros Hn. apply sysoff_estimate_defined.
  rewrite length_ts_extended. change (stride 1) with 3.
  unfold PTP_MAX_SAMPLES in Hn. lia.
Qed.

Lemma estimate_basic_defined (written : list ptp_clock_time) (n : Z) :
  n <= PTP_MAX_SAMPLES ->
  exists e, sysoff_estimate (ts_basic written) 0 n = Some e.
Proof.
  intros Hn. apply sysoff_estimate_defined.
  rewrite length_ts_basic. change (stride 0) with 2.
  unfold PTP_MAX_SAMPLES in Hn. lia.
Qed.

(** *** The dispatcher *)

Lemma sysoff_measure_precise (fd n : Z) (o : outs) :
  sysoff_measure drv abi fd SYSOFF_PRECISE n o =
  sysoff_precise drv fd (mk_outs (o_result o) (o_ts o) 0).
Proof. reflexivity. Qed.

Lemma sysoff_measure_cross (fd n : Z) (o : outs) :
  sysoff_measure drv abi fd SYSOFF_CROSS n o =
  sysoff_cross drv abi fd (mk_outs (o_result o) (o_ts o) 0).
Proof. reflexivity. Qed.

Lemma sysoff_measure_extended (fd n : Z) (o : outs) :
  sysoff_measure drv abi fd SYSOFF_EXTENDED n o = sysoff_extended drv fd n o.
Proof. reflexivity. Qed.

Lemma sysoff_measure_basic (fd n : Z) (o : outs) :
  sysoff_measure drv abi fd SYSOFF_BASIC n o = sysoff_basic drv fd n o.
Proof. reflexivity. Qed.

(** C6: through [sysoff_measure] with the Precise method, a request that
    succeeds gives the offset [pctns sys_realtime - pctns device], the
    timestamp [pctns sys_realtime] and the delay 0 with the code
    [SYSOFF_PRECISE]; a request that fails gives [SYSOFF_RUN_TIME_MISSING]
    (and leaves the offset and the timestamp as they were). *)
Theorem sysoff_measure_precise_spec (fd n : Z) (o : outs) (s : state)
    (rc : Z) (pso : ptp_sys_offset_precise) (w' : W) :
  drv_precise drv fd (world s) = (rc, pso, w') ->
  sysoff_measure drv abi fd SYSOFF_PRECISE n o s =
  (if rc =? 0 then
     Some ((SYSOFF_PRECISE,
            mk_outs (sub64 (pctns (sys_realtime pso)) (pctns (device pso)))
                    (u64 (pctns (sys_realtime pso))) 0),
           after s w' [Ioctl fd PTP_SYS_OFFSET_PRECISE])
   else
     Some ((SYSOFF_RUN_TIME_MISSING, mk_outs (o_result o) (o_ts o) 0),
           after s w' [Ioctl fd PTP_SYS_OFFSET_PRECISE;
                       PrDebug "ioctl PTP_SYS_OFFSET_PRECISE: %m" (drv_errno drv w')]))
  /\ s64 (u64 (pctns (sys_realtime pso))) = pctns (sys_realtime pso).
Proof.
  intros E. split.
  - rewrite sysoff_measure_precise.
    destruct (Z.eqb_spec rc 0) as [-> | Hrc].
    + now rewrite (sysoff_precise_ok _ _ _ _ _ E).
    + now rewrite (sysoff_precise_fail _ _ _ _ _ _ E Hrc).
  - apply s64_u64. apply s64_range.
Qed.

(** C8, amended: when its request fails, the Basic sampler returns the
    generic code [SYSOFF_RUN_TIME_MISSING] and leaves the outputs alone,
    exactly as the Extended and the Precise samplers do; what differs is the
    diagnostic, written with [perror] for Basic and with [pr_debug] for the
    other two. *)
Theorem sysoff_basic_failure_is_generic (fd n : Z) (o : outs) (s : state) :
  (forall rc written w',
      drv_basic drv fd (u32 n) (world s) = (rc, written, w') -> rc <> 0 ->
      sysoff_basic drv fd n o s =
      Some ((SYSOFF_RUN_TIME_MISSING, o),
            after s w' [Ioctl fd (PTP_SYS_OFFSET (u32 n));
                        Perror "ioctl PTP_SYS_OFFSET" (drv_errno drv w')])) /\
  (forall rc written w',
      drv_extended drv fd (u32 n) (world s) = (rc, written, w') -> rc <> 0 ->
      sysoff_extended drv fd n o s =
      Some ((SYSOFF_RUN_TIME_MISSING, o),
            after s w' [Ioctl fd (PTP_SYS_OFFSET_EXTENDED (u32 n));
                        PrDebug "ioctl PTP_SYS_OFFSET_EXTENDED: %m" (drv_errno drv w')])) /\
  (forall rc pso w',
      drv_precise drv fd (world s) = (rc, pso, w') -> rc <> 0 ->
      sysoff_precise drv fd o s =
      Some ((SYSOFF_RUN_TIME_MISSING, o),
            after s w' [Ioctl fd PTP_SYS_OFFSET_PRECISE;
                        PrDebug "ioctl PTP_SYS_OFFSET_PRECISE: %m" (drv_errno drv w')])).
Proof.
  repeat split; intros.
  - eapply sysoff_basic_fail; eassumption.
  - eapply sysoff_extended_fail; eassumption.
  - eapply sysoff_precise_fail; eassumption.
Qed.

Lemma sysoff_estimate_first_triplet (pct : list ptp_clock_time) (extended n : Z) :
  n <= 1 -> sysoff_estimate pct extended n = first_triplet pct.
Proof.
  intros Hn. rewrite sysoff_estimate_le_1 by exact Hn.
  rewrite read_bracket_0. unfold first_triplet.
  destruct pct as [| a [| p [| c r]]]; reflexivity.
Qed.

Lemma first_triplet_overwrite (written : list ptp_clock_time) (k : nat) :
  (3 <= k)%nat ->
  exists e, first_triplet (overwrite (repeat pct_zero k) written) = Some e /\
            (written = [] -> e = mk_estimate 0 0 0).
Proof.
  intros Hk.
  pose proof (length_overwrite (repeat pct_zero k) written) as Hlen.
  rewrite repeat_length in Hlen.
  destruct (overwrite (repeat pct_zero k) written) as [| a [| p [| c r]]] eqn:E;
    cbn [length] in Hlen; try lia.
  eexists. split; [reflexivity|].
  intros ->. unfold overwrite in E. cbn [app length skipn] in E.
  rewrite repeat_length, firstn_all2 in E by (rewrite repeat_length; lia).
  destruct k as [| [| [| k]]]; try lia. cbn [repeat] in E.
  injection E as <- <- <- _. reflexivity.
Qed.

(** C10: with [n_samples <= 1] (0 and negative values included)
    [sysoff_estimate] runs no iteration and its result is computed from the
    first three timestamps alone; in particular, through [sysoff_measure],
    an Extended or a Basic request for 0 samples that the device accepts is
    reported as a success, with the result of the first triplet of the
    request structure, which is (0, 0, 0) when the device stored nothing in
    the zeroed array. *)
Theorem sysoff_estimate_few_samples :
  (forall pct extended n, n <= 1 ->
      estimate_loop pct extended (Z.to_nat (n - 1)) 1 = Some /\
      sysoff_estimate pct extended n = first_triplet pct) /\
  (forall fd o (s : state) written w',
      drv_extended drv fd (u32 0) (world s) = (0, written, w') ->
      exists e,
        first_triplet (ts_extended written) = Some e /\
        (written = [] -> e = mk_estimate 0 0 0) /\
        sysoff_measure drv abi fd SYSOFF_EXTENDED 0 o s =
        Some ((SYSOFF_EXTENDED, outs_of e),
              after s w' [Ioctl fd (PTP_SYS_OFFSET_EXTENDED (u32 0))])) /\
  (forall fd o (s : state) written w',
      drv_basic drv fd (u32 0) (world s) = (0, written, w') ->
      exists e,
        first_triplet (ts_basic written) = Some e /\
        (written = [] -> e = mk_estimate 0 0 0) /\
        sysoff_measure drv abi fd SYSOFF_BASIC 0 o s =
        Some ((SYSOFF_BASIC, outs_of e),
              after s w' [Ioctl fd (PTP_SYS_OFFSET (u32 0))])).
Proof.
  split; [|split].
  - intros pct extended n Hn. split.
    + replace (Z.to_nat (n - 1)) with 0%nat by lia. reflexivity.
    + now apply sysoff_estimate_first_triplet.
  - intros fd o s written w' E.
    destruct (first_triplet_overwrite written 75) as (e & He & Hz); [lia|].
    exists e. split; [exact He|]. split; [exact Hz|].
    rewrite sysoff_measure_extended.
    apply (sysoff_extended_ok _ _ _ _ _ _ _ E).
    rewrite sysoff_estimate_first_triplet by lia. exact He.
  - intros fd o s written w' E.
    destruct (first_triplet_overwrite written 51) as (e & He & Hz); [lia|].
    exists e. split; [exact He|]. split; [exact Hz|].
    rewrite sysoff_measure_basic.
    apply (sysoff_basic_ok _ _ _ _ _ _ _ E).
    rewrite sysoff_estimate_first_triplet by lia. exact He.
Qed.

(** *** The prober *)

Lemma probe_period_eq : nspct (s32 (1 * NS_PER_MSEC)) pct_zero = probe_period.
Proof. reflexivity. Qed.

Lemma sysoff_cross_enable_run (fd period : Z) (s : state) (rc : Z) (w' : W) :
  drv_crossts drv fd (nspct period pct_zero) (world s) = (rc, w') ->
  sysoff_cross_enable drv fd period s =
  if rc =? 0 then
    Some (SYSOFF_CROSS,
          after s w' [Ioctl fd (PTP_CROSSTS_REQUEST (nspct period pct_zero))])
  else
    Some (SYSOFF_RUN_TIME_MISSING,
          after s w' [Ioctl fd (PTP_CROSSTS_REQUEST (nspct period pct_zero));
                      PrDebug "ioctl PTP_CROSSTS_REQUEST: %m" (drv_errno drv w')]).
Proof.
  intros E. unfold sysoff_cross_enable, bind, emit, on_world.
  cbn [world log buf]. rewrite E.
  destruct (rc =? 0); cbn [negb].
  - reflexivity.
  - rewrite pr_debug_run. cbn [ret]. unfold after. cbn [world log buf].
    now rewrite <- app_assoc.
Qed.

(** C4: with more samples than [PTP_MAX_SAMPLES], [sysoff_probe] returns
    [SYSOFF_RUN_TIME_MISSING] at once: the device is left as it was, the
    only things logged are the warning and the notice of the fallback, on
    the standard error, and no request is issued. *)
Theorem sysoff_probe_too_many_samples (fd n : Z) (s : state) :
  PTP_MAX_SAMPLES < n ->
  sysoff_probe drv abi fd n s =
  Some (SYSOFF_RUN_TIME_MISSING,
        after s (world s)
          [FprintfStderr "warning: %d exceeds kernel max readings %d\n"
                         [n; PTP_MAX_SAMPLES];
           FprintfStderr "falling back to clock_gettime method\n" []]).
Proof.
  intros Hn. unfold sysoff_probe.
  destruct (Z.gtb_spec n PTP_MAX_SAMPLES) as [_ | Hle]; [|lia].
  unfold bind, fprintf_stderr, emit, ret, after. cbn [world log buf].
  now rewrite <- app_assoc.
Qed.

(** C3: with at most [PTP_MAX_SAMPLES] samples, [sysoff_probe] first asks
    for periodic cross-timestamps every millisecond and returns
    [SYSOFF_CROSS] when that succeeds, with no other request; otherwise it
    issues the Precise, the Extended and the Basic request, in this order,
    stops at the first that succeeds and returns its method; when none
    succeeds it returns [SYSOFF_RUN_TIME_MISSING]. *)
Theorem sysoff_probe_priority (fd n : Z) (s : state)
    (rc0 rc1 rc2 rc3 : Z) (w0 w1 w2 w3 : W)
    (pso : ptp_sys_offset_precise) (wr2 wr3 : list ptp_clock_time) :
  n <= PTP_MAX_SAMPLES ->
  drv_crossts drv fd probe_period (world s) = (rc0, w0) ->
  drv_precise drv fd w0 = (rc1, pso, w1) ->
  drv_extended drv fd (u32 n) w1 = (rc2, wr2, w2) ->
  drv_basic drv fd (u32 n) w2 = (rc3, wr3, w3) ->
  let arm := [Ioctl fd (PTP_CROSSTS_REQUEST probe_period)] in
  let precise :=
    [PrDebug "ioctl PTP_CROSSTS_REQUEST: %m" (drv_errno drv w0);
     Ioctl fd PTP_SYS_OFFSET_PRECISE] in
  let extended :=
    [PrDebug "ioctl PTP_SYS_OFFSET_PRECISE: %m" (drv_errno drv w1);
     Ioctl fd (PTP_SYS_OFFSET_EXTENDED (u32 n))] in
  let basic :=
    [PrDebug "ioctl PTP_SYS_OFFSET_EXTENDED: %m" (drv_errno drv w2);
     Ioctl fd (PTP_SYS_OFFSET (u32 n))] in
  let none := [Perror "ioctl PTP_SYS_OFFSET" (drv_errno drv w3)] in
  sysoff_probe drv abi fd n s =
  if rc0 =? 0 then
    Some (SYSOFF_CROSS, after s w0 arm)
  else if rc1 =? 0 then
    Some (SYSOFF_PRECISE, after s w1 (arm ++ precise))
  else if rc2 =? 0 then
    Some (SYSOFF_EXTENDED, after s w2 (arm ++ precise ++ extended))
  else if rc3 =? 0 then
    Some (SYSOFF_BASIC, after s w3 (arm ++ precise ++ extended ++ basic))
  else
    Some (SYSOFF_RUN_TIME_MISSING,
          after s w3 (arm ++ precise ++ extended ++ basic ++ none)).
Proof.
  intros Hn E0 E1 E2 E3. cbv zeta.
  unfold sysoff_probe.
  destruct (Z.gtb_spec n PTP_MAX_SAMPLES) as [Hgt | _]; [lia|].
  cbv zeta. unfold bind at 1.
  rewrite (sysoff_cross_enable_run fd (s32 (1 * NS_PER_MSEC)) s rc0 w0 E0).
  rewrite probe_period_eq.
  destruct (Z.eqb_spec rc0 0) as [H0 | H0]; [reflexivity|].
  change (SYSOFF_RUN_TIME_MISSING >=? 0) with false. cbv iota.
  change (Z.to_nat (SYSOFF_LAST - (SYSOFF_CROSS + 1))) with 3%nat.
  change (SYSOFF_CROSS + 1) with SYSOFF_PRECISE.
  cbn [probe_loop]. unfold bind at 1.
  rewrite sysoff_measure_precise.
  destruct (Z.eqb_spec rc1 0) as [-> | H1].
  { rewrite (sysoff_precise_ok fd _ (after s w0 _) pso w1 E1).
    rewrite after_after. reflexivity. }
  rewrite (sysoff_precise_fail fd _ (after s w0 _) rc1 pso w1 E1 H1).
  change (SYSOFF_RUN_TIME_MISSING <? 0) with true. cbv iota.
  change (SYSOFF_PRECISE + 1) with SYSOFF_EXTENDED.
  unfold bind at 1. rewrite sysoff_measure_extended, after_after.
  destruct (Z.eqb_spec rc2 0) as [-> | H2].
  { destruct (estimate_extended_defined wr2 n Hn) as [e He].
    rewrite (sysoff_extended_ok fd n _ (after s w1 _) wr2 w2 e E2 He).
    rewrite after_after. reflexivity. }
  rewrite (sysoff_extended_fail fd n _ (after s w1 _) rc2 wr2 w2 E2 H2).
  change (SYSOFF_RUN_TIME_MISSING <? 0) with true. cbv iota.
  change (SYSOFF_EXTENDED + 1) with SYSOFF_BASIC.
  unfold bind at 1. rewrite sysoff_measure_basic, after_after.
  destruct (Z.eqb_spec rc3 0) as [-> | H3].
  { destruct (estimate_basic_defined wr3 n Hn) as [e He].
    rewrite (sysoff_basic_ok fd n _ (after s w2 _) wr3 w3 e E3 He).
    rewrite after_after. reflexivity. }
  rewrite (sysoff_basic_fail fd n _ (after s w2 _) rc3 wr3 w3 E3 H3).
  change (SYSOFF_RUN_TIME_MISSING <? 0) with true. cbv iota.
  rewrite after_after. reflexivity.
Qed.

(** *** Cross *)

Lemma poll_run (fd timeout : Z) (s : state) (r : Z) (w' : W) :
  drv_poll drv fd (world s) = (r, w') ->
  poll drv fd timeout s = Some (r, after s w' [Poll fd timeout]).
Proof.
  intros E. unfold poll, bind, emit, on_world. cbn [world log buf].
  rewrite E. reflexivity.
Qed.

Lemma read_run (fd count : Z) (s : state) (rd : option (list Byte.byte)) (w' : W) :
  drv_read drv fd count (world s) = (rd, w') ->
  read drv fd count s =
  match rd with
  | None => Some (-1, after s w' [Read fd count])
  | Some data =>
      Some (Z.of_nat (length (firstn (Z.to_nat count) data)),
            mk_state w' (log s ++ [Read fd count])
                     (overwrite (buf s) (firstn (Z.to_nat count) data)))
  end.
Proof.
  intros E. unfold read, bind, emit, on_world. cbn [world log buf].
  rewrite E. destruct rd; reflexivity.
Qed.

(** The record at the offset of the last complete record of what was
    read is made of the bytes of that record, whatever [buf] held. *)
Lemma event_at_overwrite (b data earlier rec rest : list Byte.byte) :
  data = earlier ++ rec ++ rest ->
  (length data <= length b)%nat ->
  Z.of_nat (length rec) = sizeof_event abi ->
  event_at abi (overwrite b data) (Z.of_nat (length earlier)) =
  Some (decode_event abi rec).
Proof.
  intros Hd Hlen Hrec. unfold event_at.
  rewrite length_overwrite.
  assert (Hl : length data = (length earlier + length rec + length rest)%nat).
  { rewrite Hd, !length_app. lia. }
  destruct (Z.leb_spec 0 (Z.of_nat (length earlier))) as [_ | ?]; [|lia].
  destruct (Z.leb_spec (Z.of_nat (length earlier) + sizeof_event abi)
                       (Z.of_nat (length b))) as [_ | ?]; [|lia].
  cbn [andb]. f_equal. f_equal.
  rewrite <- Hrec, !Nat2Z.id.
  unfold overwrite.
  rewrite (firstn_all2 (data ++ skipn (length data) b))
    by (rewrite length_app, length_skipn; lia).
  rewrite Hd, <- !app_assoc.
  rewrite skipn_app, skipn_all, Nat.sub_diag. cbn [app skipn].
  rewrite firstn_app, firstn_all, Nat.sub_diag. cbn [firstn].
  apply app_nil_r.
Qed.

Lemma last_record_index (len m sz q : Z) :
  0 < sz -> 0 <= m -> 0 <= q < sz -> len = m * sz + sz + q -> len <= 4096 ->
  u64 len = len /\ (u64 len <? sz) = false /\
  u64 ((s32 (u64 len / sz) - 1) * sz) = m * sz.
Proof.
  intros Hsz Hm Hq Hlen Hmax.
  assert (H1 : u64 len = len) by (apply u64_id; int_unfold; nia).
  rewrite H1. split; [reflexivity|]. split.
  - apply Z.ltb_ge. nia.
  - assert (Hdiv : len / sz = m + 1).
    { symmetry. apply Z.div_unique with (r := q); lia. }
    rewrite Hdiv.
    assert (H2 : s32 (m + 1) = m + 1).
    { int_unfold. rewrite Z.mod_small; nia. }
    rewrite H2. replace (m + 1 - 1) with m by lia.
    apply u64_id. int_unfold. nia.
Qed.

Lemma sysoff_cross_no_data (fd r : Z) (o : outs) (s : state) (w1 : W) :
  drv_poll drv fd (world s) = (r, w1) -> r < 1 ->
  sysoff_cross drv abi fd o s =
  Some ((SYSOFF_RUN_TIME_MISSING, o),
        after s w1 [Poll fd 0; PrDebug "poll sysoff_cross: %m" (drv_errno drv w1)]).
Proof.
  intros Ep Hr. unfold sysoff_cross. unfold bind at 1.
  rewrite (poll_run _ _ _ _ _ Ep).
  destruct (Z.ltb_spec r 1) as [_ | ?]; [|lia].
  unfold bind. rewrite pr_debug_run. cbn [ret]. now rewrite after_after.
Qed.

Lemma sysoff_cross_read (fd r : Z) (o : outs) (s : state) (w1 w2 : W)
    (rd : option (list Byte.byte)) :
  drv_poll drv fd (world s) = (r, w1) -> 1 <= r ->
  drv_read drv fd sizeof_buf w1 = (rd, w2) ->
  returned (sysoff_cross drv abi fd o s) =
  match rd with
  | None => Some (SYSOFF_RUN_TIME_MISSING, o)
  | Some data =>
      let delivered := firstn (Z.to_nat sizeof_buf) data in
      let len := Z.of_nat (length delivered) in
      if u64 len <? sizeof_event abi then Some (SYSOFF_RUN_TIME_MISSING, o)
      else
        match event_at abi (overwrite (buf s) delivered)
                       (u64 ((s32 (u64 len / sizeof_event abi) - 1) * sizeof_event abi)) with
        | None => None
        | Some ev =>
            if Z.land (flags ev) (PTP_EVENT_CROSS abi) =? 0
            then Some (SYSOFF_RUN_TIME_MISSING, o)
            else Some (SYSOFF_CROSS,
                       mk_outs (sub64 (pctns (t ev)) (tstamp ev))
                               (u64 (pctns (t ev)))
                               (s64 (PTP_EVENT_CROSS_DELAY abi (flags ev))))
        end
  end.
Proof.
  intros Ep Hr Er. unfold sysoff_cross. unfold bind at 1.
  rewrite (poll_run _ _ _ _ _ Ep).
  destruct (Z.ltb_spec r 1) as [? | _]; [lia|].
  unfold bind at 1.
  rewrite (read_run fd sizeof_buf (after s w1 [Poll fd 0]) rd w2 Er).
  destruct rd as [data|].
  - cbv zeta.
    destruct (Z.ltb_spec (Z.of_nat (length (firstn (Z.to_nat sizeof_buf) data))) 0)
      as [? | _]; [lia|].
    destruct (u64 (Z.of_nat (length (firstn (Z.to_nat sizeof_buf) data)))
              <? sizeof_event abi).
    + reflexivity.
    + unfold bind at 1. unfold get_buf. cbn [buf after].
      destruct (event_at abi _ _) as [ev|]; [|reflexivity].
      destruct (Z.land (flags ev) (PTP_EVENT_CROSS abi) =? 0); reflexivity.
  - reflexivity.
Qed.

(** C5: [sysoff_cross] returns [SYSOFF_RUN_TIME_MISSING], and leaves the
    outputs alone, when [poll] reports nothing to read, when [read] fails,
    when [read] delivers fewer bytes than one record and when the last
    complete record delivered has its cross-timestamp flag unset; otherwise
    it returns [SYSOFF_CROSS] with the offset [pctns t - tstamp], the
    timestamp [pctns t] and the delay sub-field of the flags of that last
    complete record, whatever the records before it and the incomplete
    record after it are. *)
Theorem sysoff_cross_last_record (fd r : Z) (o : outs) (s : state)
    (w1 w2 : W) (rd : option (list Byte.byte)) :
  0 < sizeof_event abi ->
  length (buf s) = Z.to_nat sizeof_buf ->
  drv_poll drv fd (world s) = (r, w1) ->
  drv_read drv fd sizeof_buf w1 = (rd, w2) ->
  let missing := Some (SYSOFF_RUN_TIME_MISSING, o) in
  (r < 1 -> returned (sysoff_cross drv abi fd o s) = missing) /\
  (1 <= r -> rd = None -> returned (sysoff_cross drv abi fd o s) = missing) /\
  (1 <= r -> forall data, rd = Some data ->
     Z.of_nat (length (firstn (Z.to_nat sizeof_buf) data)) < sizeof_event abi ->
     returned (sysoff_cross drv abi fd o s) = missing) /\
  (1 <= r -> forall data earlier rec rest m, rd = Some data ->
     firstn (Z.to_nat sizeof_buf) data = earlier ++ rec ++ rest ->
     Z.of_nat (length earlier) = Z.of_nat m * sizeof_event abi ->
     Z.of_nat (length rec) = sizeof_event abi ->
     Z.of_nat (length rest) < sizeof_event abi ->
     let ev := decode_event abi rec in
     returned (sysoff_cross drv abi fd o s) =
     if Z.land (flags ev) (PTP_EVENT_CROSS abi) =? 0 then missing
     else Some (SYSOFF_CROSS,
                mk_outs (sub64 (pctns (t ev)) (tstamp ev))
                        (u64 (pctns (t ev)))
                        (s64 (PTP_EVENT_CROSS_DELAY abi (flags ev))))).
Proof.
  intros Hsz Hbuf Ep Er. cbv zeta. split; [|split; [|split]].
  - intros Hr. now rewrite (sysoff_cross_no_data _ _ _ _ _ Ep Hr).
  - intros Hr ->. now rewrite (sysoff_cross_read _ _ _ _ _ _ _ Ep Hr Er).
  - intros Hr data -> Hshort.
    rewrite (sysoff_cross_read _ _ _ _ _ _ _ Ep Hr Er). cbv zeta.
    rewrite u64_id.
    + destruct (Z.ltb_spec (Z.of_nat (length (firstn (Z.to_nat sizeof_buf) data)))
                           (sizeof_event abi)); [reflexivity | lia].
    + pose proof (firstn_le_length (Z.to_nat sizeof_buf) data).
      unfold sizeof_buf in *. int_unfold. lia.
  - intros Hr data earlier rec rest m -> Hd Hearlier Hrec Hrest.
    rewrite (sysoff_cross_read _ _ _ _ _ _ _ Ep Hr Er). cbv zeta.
    pose proof (firstn_le_length (Z.to_nat sizeof_buf) data) as Hmax.
    assert (Hlen : Z.of_nat (length (firstn (Z.to_nat sizeof_buf) data))
                   = Z.of_nat m * sizeof_event abi + sizeof_event abi
                     + Z.of_nat (length rest)).
    { rewrite Hd, !length_app. lia. }
    assert (Hmax' : Z.of_nat (length (firstn (Z.to_nat sizeof_buf) data)) <= 4096).
    { apply Nat2Z.inj_le in Hmax.
      rewrite Z2Nat.id in Hmax by (unfold sizeof_buf; lia). exact Hmax. }
    destruct (last_record_index _ (Z.of_nat m) (sizeof_event abi)
                (Z.of_nat (length rest)) Hsz ltac:(lia) ltac:(lia) Hlen Hmax')
      as (_ & -> & ->).
    rewrite <- Hearlier.
    rewrite (event_at_overwrite (buf s) _ earlier rec rest Hd ltac:(lia) Hrec).
    reflexivity.
Qed.

End Running.

(** ** The samplers and the prober on the example devices *)

Lemma sysoff_measure_precise_spec_witness :
  sysoff_measure (sim_driver 0 0 0 0 0 [] 0 None) example_abi 3 SYSOFF_PRECISE 1
                 no_outs start =
  Some ((SYSOFF_PRECISE, mk_outs 50 5000000000 0),
        after start tt [Ioctl 3 PTP_SYS_OFFSET_PRECISE])
  /\ s64 (u64 5000000000) = 5000000000.
Proof.
  apply (sysoff_measure_precise_spec (sim_driver 0 0 0 0 0 [] 0 None) example_abi
           3 1 no_outs start 0
           (mk_precise (mk_pct 4 999999950 0) (mk_pct 5 0 0) pct_zero) tt).
  reflexivity.
Defined.

(** The Precise request refused: the generic code. *)
Example sysoff_measure_precise_refused :
  returned (sysoff_measure (failing_driver 25) example_abi 3 SYSOFF_PRECISE 1
                           no_outs start)
  = Some (SYSOFF_RUN_TIME_MISSING, no_outs).
Proof. reflexivity. Qed.

(** C8, as the spec states it, on two devices that refuse the Basic
    request for different reasons ([errno] 25 and 95): the sampler returns
    the same generic code in both cases, the one that the Extended sampler
    returns as well; the reason only shows in what [perror] prints. *)
Lemma sysoff_basic_failure_not_verbatim :
  returned (sysoff_basic (failing_driver 25) 3 5 no_outs start)
    = Some (SYSOFF_RUN_TIME_MISSING, no_outs) /\
  returned (sysoff_basic (failing_driver 95) 3 5 no_outs start)
    = Some (SYSOFF_RUN_TIME_MISSING, no_outs) /\
  returned (sysoff_extended (failing_driver 25) 3 5 no_outs start)
    = Some (SYSOFF_RUN_TIME_MISSING, no_outs) /\
  option_map (fun r => log (snd r)) (sysoff_basic (failing_driver 95) 3 5 no_outs start)
    = Some [Ioctl 3 (PTP_SYS_OFFSET 5); Perror "ioctl PTP_SYS_OFFSET" 95].
Proof. repeat split. Qed.

Lemma sysoff_basic_failure_is_generic_witness :
  sysoff_basic (failing_driver 95) 3 5 no_outs start =
  Some ((SYSOFF_RUN_TIME_MISSING, no_outs),
        after start tt [Ioctl 3 (PTP_SYS_OFFSET 5);
                        Perror "ioctl PTP_SYS_OFFSET" 95]).
Proof.
  apply (proj1 (sysoff_basic_failure_is_generic (failing_driver 95) 3 5 no_outs start)
           (-1) [] tt).
  - reflexivity.
  - discriminate.
Defined.

Lemma sysoff_estimate_few_samples_witness :
  sysoff_measure (sim_driver 0 0 0 0 0 [] 0 None) example_abi 3 SYSOFF_EXTENDED 0
                 no_outs start =
  Some ((SYSOFF_EXTENDED, mk_outs 0 0 0),
        after start tt [Ioctl 3 (PTP_SYS_OFFSET_EXTENDED 0)]).
Proof.
  destruct (proj1 (proj2 (sysoff_estimate_few_samples
                            (sim_driver 0 0 0 0 0 [] 0 None) example_abi))
              3 no_outs start [] tt eq_refl) as (e & _ & Hz & Hm).
  rewrite (Hz eq_refl) in Hm. exact Hm.
Defined.

Lemma sysoff_probe_too_many_samples_witness :
  sysoff_probe (sim_driver 0 0 0 0 0 [] 0 None) example_abi 3 100 start =
  Some (SYSOFF_RUN_TIME_MISSING,
        after start tt
          [FprintfStderr "warning: %d exceeds kernel max readings %d\n" [100; 25];
           FprintfStderr "falling back to clock_gettime method\n" []]).
Proof.
  apply (sysoff_probe_too_many_samples (sim_driver 0 0 0 0 0 [] 0 None)
           example_abi 3 100 start).
  reflexivity.
Defined.

(** A device without cross-timestamping and without the Precise request,
    asked for 2 samples: Extended is selected. *)
Lemma sysoff_probe_priority_witness :
  sysoff_probe (sim_driver (-1) (-1) 0 0 25 example_pct 0 None) example_abi 3 2 start =
  Some (SYSOFF_EXTENDED,
        after start tt
          [Ioctl 3 (PTP_CROSSTS_REQUEST (mk_pct 0 1000000 0));
           PrDebug "ioctl PTP_CROSSTS_REQUEST: %m" 25;
           Ioctl 3 PTP_SYS_OFFSET_PRECISE;
           PrDebug "ioctl PTP_SYS_OFFSET_PRECISE: %m" 25;
           Ioctl 3 (PTP_SYS_OFFSET_EXTENDED 2)]).
Proof.
  apply (sysoff_probe_priority (sim_driver (-1) (-1) 0 0 25 example_pct 0 None)
           example_abi 3 2 start (-1) (-1) 0 0 tt tt tt tt
           (mk_precise (mk_pct 4 999999950 0) (mk_pct 5 0 0) pct_zero)
           example_pct example_pct).
  - discriminate.
  - reflexivity.
  - reflexivity.
  - reflexivity.
  - reflexivity.
Defined.

(** Cross-timestamping armed: Cross is selected and nothing else is
    asked. *)
Example sysoff_probe_cross :
  sysoff_probe (sim_driver 0 0 0 0 0 example_pct 0 None) example_abi 3 2 start =
  Some (SYSOFF_CROSS,
        after start tt [Ioctl 3 (PTP_CROSSTS_REQUEST (mk_pct 0 1000000 0))]).
Proof. reflexivity. Qed.

(** Nothing supported. *)
Example sysoff_probe_nothing :
  returned (sysoff_probe (failing_driver 25) example_abi 3 2 start)
  = Some SYSOFF_RUN_TIME_MISSING.
Proof. reflexivity. Qed.

(** The spec's example: three records back to back, the last one valid. *)
Lemma sysoff_cross_last_record_witness :
  returned (sysoff_cross (sim_driver 0 0 0 0 0 [] 1 (Some example_stream))
                         example_abi 3 no_outs start)
  = Some (SYSOFF_CROSS, mk_outs 400 1002000000 7).
Proof.
  destruct (sysoff_cross_last_record
              (sim_driver 0 0 0 0 0 [] 1 (Some example_stream)) example_abi
              3 1 no_outs start tt tt (Some example_stream))
    as (_ & _ & _ & H).
  - reflexivity.
  - reflexivity.
  - reflexivity.
  - reflexivity.
  - apply (H ltac:(discriminate) example_stream
             (example_record_1 ++ example_record_2) example_record_3 [] 2%nat);
      reflexivity.
Defined.

(** The same read with the last record invalid, or cut short. *)
Example sysoff_cross_invalid_last :
  returned (sysoff_cross
              (sim_driver 0 0 0 0 0 [] 1
                 (Some (example_record_1 ++ example_record_3 ++ example_record_2)))
              example_abi 3 no_outs start)
  = Some (SYSOFF_RUN_TIME_MISSING, no_outs).
Proof. vm_compute. reflexivity. Qed.

Example sysoff_cross_partial_tail :
  returned (sysoff_cross
              (sim_driver 0 0 0 0 0 [] 1
                 (Some (example_stream ++ firstn 20 example_record_2)))
              example_abi 3 no_outs start)
  = Some (SYSOFF_CROSS, mk_outs 400 1002000000 7).
Proof. vm_compute. reflexivity. Qed.

(** * Further properties *)

(** ** Time codec *)

Lemma quot_rem_ns (t0 : Z) :
  t0 = Z.quot t0 NS_PER_SEC * NS_PER_SEC + Z.rem t0 NS_PER_SEC.
Proof. rewrite Z.mul_comm. apply Z.quot_rem'. Qed.

(** The fields that [nspct] stores for a non-negative count. *)
Lemma nspct_nonneg_fields (t0 : Z) (p : ptp_clock_time) :
  0 <= t0 < 2 ^ 63 ->
  sec (nspct t0 p) = t0 / NS_PER_SEC /\
  nsec (nspct t0 p) = t0 mod NS_PER_SEC /\
  reserved (nspct t0 p) = reserved p.
Proof.
  intros Ht. unfold NS_PER_SEC.
  pose proof (Z.div_mod t0 1000000000 ltac:(lia)) as Hdm.
  pose proof (Z.mod_pos_bound t0 1000000000 ltac:(lia)) as Hmb.
  assert (Hq : 0 <= t0 / 1000000000 <= t0).
  { split; [apply Z.div_pos; lia | nia]. }
  unfold nspct, NS_PER_SEC; cbn [sec nsec reserved].
  unfold div64, rem64.
  rewrite Z.quot_div_nonneg, Z.rem_mod_nonneg by lia.
  rewrite !s64_id by (int_unfold; lia).
  rewrite u32_id by (int_unfold; lia).
  repeat split.
Qed.

(** X1: for a non-negative nanosecond count, [nspct] gives a normalised
    timestamp (seconds non-negative, nanoseconds in [0, 1e9)) and [pctns]
    gives the count back. *)
Theorem pctns_nspct_nonneg (t0 : Z) (p : ptp_clock_time) :
  0 <= t0 < 2 ^ 63 ->
  0 <= sec (nspct t0 p) /\
  0 <= nsec (nspct t0 p) < NS_PER_SEC /\
  pctns (nspct t0 p) = t0.
Proof.
  intros Ht.
  destruct (nspct_nonneg_fields t0 p Ht) as (Hs & Hn & _).
  pose proof (Z.div_mod t0 NS_PER_SEC ltac:(discriminate)) as Hdm.
  pose proof (Z.mod_pos_bound t0 NS_PER_SEC ltac:(reflexivity)) as Hmb.
  assert (Hq : 0 <= t0 / NS_PER_SEC)
    by (apply Z.div_pos; [lia | reflexivity]).
  rewrite pctns_exact; rewrite ?Hs, ?Hn; lia.
Qed.

Lemma pctns_nspct_nonneg_witness :
  0 <= sec (nspct 4999999950 pct_zero) /\
  0 <= nsec (nspct 4999999950 pct_zero) < NS_PER_SEC /\
  pctns (nspct 4999999950 pct_zero) = 4999999950.
Proof.
  apply (pctns_nspct_nonneg 4999999950 pct_zero). int_unfold. lia.
Defined.

(** X2: for a negative nanosecond count that is not a whole number of
    seconds, [nspct] does not normalise: the seconds are truncated toward
    zero and the negative remainder, stored in the unsigned [nsec], becomes
    [2^32 + remainder], which is beyond a second; [pctns] then gives the
    count plus [2^32] nanoseconds. *)
Theorem nspct_negative (t0 : Z) (p : ptp_clock_time) :
  - 2 ^ 63 <= t0 < 0 -> Z.rem t0 NS_PER_SEC <> 0 ->
  sec (nspct t0 p) = Z.quot t0 NS_PER_SEC /\
  nsec (nspct t0 p) = 2 ^ 32 + Z.rem t0 NS_PER_SEC /\
  NS_PER_SEC <= nsec (nspct t0 p) /\
  pctns (nspct t0 p) = t0 + 2 ^ 32.
Proof.
  intros Ht Hnz.
  pose proof (quot_rem_ns t0) as Hqr.
  pose proof (Z.rem_bound_pos_neg t0 NS_PER_SEC) as Hr.
  assert (Hq : t0 <= Z.quot t0 NS_PER_SEC <= 0).
  { unfold NS_PER_SEC in *.
    assert (Z.quot t0 1000000000 <= 0).
    { rewrite <- (Z.quot_0_l 1000000000) by lia. apply Z.quot_le_mono; lia. }
    split; [nia | lia]. }
  unfold NS_PER_SEC in *.
  assert (Hsec : div64 t0 1000000000 = Z.quot t0 1000000000).
  { apply s64_id. int_unfold. lia. }
  assert (Hnsec : u32 (rem64 t0 1000000000) = 2 ^ 32 + Z.rem t0 1000000000).
  { unfold rem64. rewrite s64_id by (int_unfold; lia).
    int_unfold. symmetry. apply Z.mod_unique with (q := -1); lia. }
  unfold pctns, nspct, NS_PER_SEC; cbn [sec nsec reserved].
  rewrite Hsec, Hnsec. split; [reflexivity|]. split; [reflexivity|].
  split; [int_unfold; lia|].
  unfold add64, mul64, NS_PER_SEC.
  rewrite (s64_id (_ * _)) by (int_unfold; nia).
  rewrite s64_id; int_unfold; lia.
Qed.

Lemma nspct_negative_witness :
  sec (nspct (-1) pct_zero) = Z.quot (-1) NS_PER_SEC /\
  nsec (nspct (-1) pct_zero) = 2 ^ 32 + Z.rem (-1) NS_PER_SEC /\
  NS_PER_SEC <= nsec (nspct (-1) pct_zero) /\
  pctns (nspct (-1) pct_zero) = -1 + 2 ^ 32.
Proof.
  apply (nspct_negative (-1) pct_zero).
  - int_unfold. lia.
  - discriminate.
Defined.

(** X3: on normalised timestamps whose nanosecond count fits 64 bits,
    [pctns] keeps the order of time: a count is smaller exactly when the
    seconds are smaller or, the seconds being the same, the nanoseconds
    are. *)
Theorem pctns_order (t1 t2 : ptp_clock_time) :
  0 <= sec t1 -> 0 <= nsec t1 < NS_PER_SEC ->
  sec t1 * NS_PER_SEC + nsec t1 < 2 ^ 63 ->
  0 <= sec t2 -> 0 <= nsec t2 < NS_PER_SEC ->
  sec t2 * NS_PER_SEC + nsec t2 < 2 ^ 63 ->
  (pctns t1 < pctns t2 <->
   sec t1 < sec t2 \/ (sec t1 = sec t2 /\ nsec t1 < nsec t2)) /\
  (pctns t1 = pctns t2 -> sec t1 = sec t2 /\ nsec t1 = nsec t2).
Proof.
  intros Hs1 Hn1 Hb1 Hs2 Hn2 Hb2.
  rewrite (pctns_exact t1), (pctns_exact t2) by assumption.
  unfold NS_PER_SEC in *. split; [split|]; intros H; nia.
Qed.

Lemma pctns_order_witness :
  (pctns (mk_pct 4 999999950 0) < pctns (mk_pct 5 0 0) <->
   4 < 5 \/ (4 = 5 /\ 999999950 < 0)) /\
  (pctns (mk_pct 4 999999950 0) = pctns (mk_pct 5 0 0) ->
   4 = 5 /\ 999999950 = 0).
Proof.
  apply (pctns_order (mk_pct 4 999999950 0) (mk_pct 5 0 0));
    cbn [sec nsec]; unfold NS_PER_SEC; lia.
Defined.

(** ** [sysoff_estimate] *)

Lemma at_index_app (pct extra : list ptp_clock_time) (i : Z) (x : ptp_clock_time) :
  at_index pct i = Some x -> at_index (pct ++ extra) i = Some x.
Proof.
  unfold at_index. destruct (i <? 0); [discriminate|].
  intros E. rewrite nth_error_app1; [exact E|].
  apply nth_error_Some. congruence.
Qed.

Lemma read_bracket_app (pct extra : list ptp_clock_time) (extended i : Z)
    (b : Z * Z * Z) :
  read_bracket pct extended i = Some b ->
  read_bracket (pct ++ extra) extended i = Some b.
Proof.
  unfold read_bracket. destruct (negb (extended =? 0)).
  - destruct (at_index pct (3 * i)) as [a|] eqn:Ea; [|discriminate].
    destruct (at_index pct (3 * i + 1)) as [p|] eqn:Ep; [|discriminate].
    destruct (at_index pct (3 * i + 2)) as [c|] eqn:Ec; [|discriminate].
    now rewrite (at_index_app _ extra _ _ Ea), (at_index_app _ extra _ _ Ep),
      (at_index_app _ extra _ _ Ec).
  - destruct (at_index pct (2 * i)) as [a|] eqn:Ea; [|discriminate].
    destruct (at_index pct (2 * i + 1)) as [p|] eqn:Ep; [|discriminate].
    destruct (at_index pct (2 * i + 2)) as [c|] eqn:Ec; [|discriminate].
    now rewrite (at_index_app _ extra _ _ Ea), (at_index_app _ extra _ _ Ep),
      (at_index_app _ extra _ _ Ec).
Qed.

Lemma estimate_loop_app (pct extra : list ptp_clock_time) (extended : Z)
    (count : nat) :
  forall i acc r, estimate_loop pct extended count i acc = Some r ->
  estimate_loop (pct ++ extra) extended count i acc = Some r.
Proof.
  induction count as [| count IH]; intros i acc r; cbn [estimate_loop].
  - trivial.
  - destruct (read_bracket pct extended i) as [b|] eqn:Eb; [|discriminate].
    rewrite (read_bracket_app _ extra _ _ _ Eb). apply IH.
Qed.



Lemma update_best_improves (acc : best) (b : Z * Z * Z) :
  update_best acc b = acc \/
  shortest_interval (update_best acc b) < shortest_interval acc.
Proof.
  rewrite update_best_eq.
  destruct (Z.ltb_spec (interval_of b) (shortest_interval acc)).
  - right. exact H.
  - now left.
Qed.

Lemma estimate_loop_improves (pct : list ptp_clock_time) (extended : Z)
    (count : nat) :
  forall i acc r, estimate_loop pct extended count i acc = Some r ->
  r = acc \/ shortest_interval r < shortest_interval acc.
Proof.
  induction count as [| count IH]; intros i acc r; cbn [estimate_loop].
  - intros E. injection E as <-. now left.
  - destruct (read_bracket pct extended i) as [b|]; [|discriminate].
    intros E. apply IH in E.
    destruct (update_best_improves acc b) as [Hu | Hu], E as [-> | E].
    + left. exact Hu.
    + right. now rewrite Hu in E.
    + right. exact Hu.
    + right. lia.
Qed.

Lemma estimate_loop_split (pct : list ptp_clock_time) (extended : Z)
    (c1 c2 : nat) :
  forall i acc,
  estimate_loop pct extended (c1 + c2) i acc =
  match estimate_loop pct extended c1 i acc with
  | Some a => estimate_loop pct extended c2 (i + Z.of_nat c1) a
  | None => None
  end.
Proof.
  induction c1 as [| c1 IH]; intros i acc.
  - cbn [estimate_loop Nat.add]. now rewrite Z.add_0_r.
  - cbn [estimate_loop Nat.add].
    destruct (read_bracket pct extended i) as [b|]; [|reflexivity].
    rewrite IH. replace (i + 1 + Z.of_nat c1) with (i + Z.of_nat (S c1)) by lia.
    reflexivity.
Qed.

(** X5: asking [sysoff_estimate] for more samples of the same array never
    gives a larger delay, and gives the very same result unless the delay
    gets strictly smaller. *)
Theorem sysoff_estimate_more_samples (pct : list ptp_clock_time)
    (extended n m : Z) (e e' : estimate) :
  n <= m ->
  sysoff_estimate pct extended n = Some e ->
  sysoff_estimate pct extended m = Some e' ->
  est_delay e' <= est_delay e /\ (est_delay e' = est_delay e -> e' = e).
Proof.
  intros Hnm. unfold sysoff_estimate.
  destruct (read_bracket pct extended 0) as [b0|]; [|discriminate].
  replace (Z.to_nat (m - 1))
    with (Z.to_nat (n - 1) + (Z.to_nat (m - 1) - Z.to_nat (n - 1)))%nat by lia.
  rewrite estimate_loop_split.
  destruct (estimate_loop pct extended (Z.to_nat (n - 1)) 1 (first_best b0))
    as [acc|]; [|discriminate].
  intros E. injection E as <-.
  destruct (estimate_loop pct extended _ _ acc) as [acc'|] eqn:E'; [|discriminate].
  intros E. injection E as <-. cbn [est_delay].
  destruct (estimate_loop_improves _ _ _ _ _ _ E') as [-> | Hlt].
  - split; [lia | reflexivity].
  - split; [lia | intros; lia].
Qed.

Lemma sysoff_estimate_more_samples_witness :
  est_delay (mk_estimate 10 1050 100) <= est_delay (mk_estimate 50 200 200) /\
  (est_delay (mk_estimate 10 1050 100) = est_delay (mk_estimate 50 200 200) ->
   mk_estimate 10 1050 100 = mk_estimate 50 200 200).
Proof.
  apply (sysoff_estimate_more_samples example_pct 1 1 2); [lia | | ]; reflexivity.
Defined.

(** On [n >= 1] samples of a long enough array the result is that of one
    of the samples. *)
Lemma sysoff_estimate_picks (pct : list ptp_clock_time) (extended n : Z) :
  1 <= n ->
  stride extended * (n - 1) + 2 < Z.of_nat (length pct) ->
  exists k b,
    0 <= k < n /\ sample_at pct extended k b /\
    sysoff_estimate pct extended n = Some (to_estimate (first_best b)).
Proof.
  intros Hn Hlen.
  destruct (brackets_defined pct extended (Z.to_nat n) 0) as [l Hl]; [lia| |].
  { rewrite Z2Nat.id by lia. exact Hlen. }
  destruct (brackets_nth _ _ _ _ _ Hl) as [Hlength Hnth].
  assert (Hne : l <> []) by (intros ->; cbn in Hlength; lia).
  destruct (SelectorFacts.first_min_exists l Hne) as (l1 & x & l2 & -> & Hm).
  rewrite length_app in Hlength. cbn [length] in Hlength.
  exists (Z.of_nat (length l1)), x. split; [lia|]. split.
  - apply read_bracket_sample; [lia|].
    pose proof (Hnth (length l1) ltac:(lia)) as Hx.
    rewrite Z.add_0_l in Hx. rewrite <- Hx.
    rewrite nth_error_app2 by lia. now rewrite Nat.sub_diag.
  - rewrite (sysoff_estimate_select _ _ _ _ Hn Hl).
    now rewrite (SelectorFacts.select_first_min _ _ _ Hm).
Qed.

(** X6: when every sample read has its system timestamps in order
    ([0 <= before <= after]) and all its values below [2^62] nanoseconds,
    nothing wraps: the delay is the exact width [after - before] of one of
    the samples and is not negative, the timestamp lies inside that
    sample's bracket, at most half a nanosecond before its middle, and the
    offset is the exact difference of the timestamp and the device time. *)
Theorem sysoff_estimate_within_bracket (pct : list ptp_clock_time)
    (extended n : Z) :
  1 <= n ->
  stride extended * (n - 1) + 2 < Z.of_nat (length pct) ->
  (forall j before hw after, 0 <= j < n ->
     sample_at pct extended j (before, hw, after) ->
     0 <= before <= after /\ after < 2 ^ 62 /\ 0 <= hw < 2 ^ 62) ->
  exists k before hw after e,
    0 <= k < n /\ sample_at pct extended k (before, hw, after) /\
    sysoff_estimate pct extended n = Some e /\
    est_delay e = after - before /\ 0 <= est_delay e /\
    before <= est_ts e <= after /\
    2 * est_ts e <= after + before <= 2 * est_ts e + 1 /\
    est_offset e = est_ts e - hw.
Proof.
  intros Hn Hlen Hsane.
  destruct (sysoff_estimate_picks pct extended n Hn Hlen)
    as (k & [[before hw] after] & Hk & Hs & He).
  destruct (Hsane k before hw after Hk Hs) as (Hba & Ha & Hh).
  exists k, before, hw, after, (to_estimate (first_best (before, hw, after))).
  split; [exact Hk|]. split; [exact Hs|]. split; [exact He|].
  cbn [to_estimate first_best est_delay est_ts est_offset
       shortest_interval best_timestamp best_offset].
  assert (Hsum : in_s64 (after + before)) by (int_unfold; lia).
  rewrite (add64_exact _ _ Hsum), (div64_2_exact _ Hsum).
  rewrite Z.quot_div_nonneg by lia.
  pose proof (Z.div_mod (after + before) 2 ltac:(lia)) as Hdm.
  pose proof (Z.mod_pos_bound (after + before) 2 ltac:(lia)) as Hmb.
  set (mid := (after + before) / 2) in *. clearbody mid.
  rewrite (sub64_exact after before) by (int_unfold; lia).
  rewrite (sub64_exact mid hw) by (int_unfold; lia).
  rewrite u64_id by (int_unfold; lia).
  repeat split; lia.
Qed.

Lemma sysoff_estimate_within_bracket_witness :
  exists k before hw after e,
    0 <= k < 2 /\ sample_at example_pct 1 k (before, hw, after) /\
    sysoff_estimate example_pct 1 2 = Some e /\
    est_delay e = after - before /\ 0 <= est_delay e /\
    before <= est_ts e <= after /\
    2 * est_ts e <= after + before <= 2 * est_ts e + 1 /\
    est_offset e = est_ts e - hw.
Proof.
  apply (sysoff_estimate_within_bracket example_pct 1 2).
  - lia.
  - cbn. lia.
  - intros j before hw after Hj Hs.
    apply read_bracket_sample in Hs; [|lia].
    assert (Hc : j = 0 \/ j = 1) by lia.
    destruct Hc as [-> | ->]; vm_compute in Hs; injection Hs as <- <- <-;
      int_unfold; lia.
Defined.

Lemma estimate_loop_reads (pct : list ptp_clock_time) (extended : Z)
    (count : nat) :
  forall i acc r, estimate_loop pct extended count i acc = Some r ->
  forall j, (j < count)%nat ->
  exists b, read_bracket pct extended (i + Z.of_nat j) = Some b.
Proof.
  induction count as [| count IH]; intros i acc r E j Hj; [lia|].
  cbn [estimate_loop] in E.
  destruct (read_bracket pct extended i) as [b|] eqn:Eb; [|discriminate].
  destruct j as [| j].
  - exists b. now rewrite Z.add_0_r.
  - destruct (IH _ _ _ E j ltac:(lia)) as [b' Hb'].
    exists b'. rewrite <- Hb'. f_equal. lia.
Qed.

Lemma read_bracket_bound (pct : list ptp_clock_time) (extended i : Z)
    (b : Z * Z * Z) :
  0 <= i -> read_bracket pct extended i = Some b ->
  stride extended * i + 2 < Z.of_nat (length pct).
Proof.
  intros Hi E. apply read_bracket_sample in E; [|exact Hi].
  destruct E as (a & p & c & _ & _ & Hc & _).
  assert (Hs : 2 <= stride extended <= 3)
    by (unfold stride; destruct (extended =? 0); lia).
  assert (Hlt : (Z.to_nat (stride extended * i + 2) < length pct)%nat)
    by (apply nth_error_Some; congruence).
  apply Nat2Z.inj_lt in Hlt. rewrite Z2Nat.id in Hlt by nia. exact Hlt.
Qed.

(** Where [sysoff_estimate] has a result, the array holds every sample
    that it reads. *)
Lemma sysoff_estimate_bound (pct : list ptp_clock_time) (extended n : Z)
    (e : estimate) :
  sysoff_estimate pct extended n = Some e ->
  stride extended * (Z.max n 1 - 1) + 2 < Z.of_nat (length pct).
Proof.
  unfold sysoff_estimate.
  destruct (read_bracket pct extended 0) as [b0|] eqn:E0; [|discriminate].
  destruct (estimate_loop pct extended (Z.to_nat (n - 1)) 1 (first_best b0))
    as [acc|] eqn:El; [|discriminate].
  intros _. destruct (Z_le_gt_dec n 1) as [Hn | Hn].
  - replace (Z.max n 1 - 1) with 0 by lia.
    apply (read_bracket_bound _ _ _ b0); [lia | exact E0].
  - destruct (estimate_loop_reads _ _ _ _ _ _ El (Z.to_nat (n - 2)) ltac:(lia))
      as [b Hb].
    replace (1 + Z.of_nat (Z.to_nat (n - 2))) with (Z.max n 1 - 1) in Hb by lia.
    apply (read_bracket_bound _ _ _ b); [lia | exact Hb].
Qed.

(** X7: [sysoff_estimate] has a result exactly when the array holds the
    samples that it reads: [3 * n] timestamps in extended mode and
    [2 * n + 1] in basic mode for [n >= 1] samples, and 3 timestamps for
    [n <= 1]; otherwise it reads outside of the array. *)
Theorem sysoff_estimate_defined_iff (pct : list ptp_clock_time) (extended n : Z) :
  (exists e, sysoff_estimate pct extended n = Some e) <->
  stride extended * (Z.max n 1 - 1) + 2 < Z.of_nat (length pct).
Proof.
  split.
  - intros [e He]. exact (sysoff_estimate_bound _ _ _ _ He).
  - apply sysoff_estimate_defined.
Qed.

Lemma brackets_basic (pct : list ptp_clock_time) (n : nat) :
  (2 * n + 1 <= length pct)%nat ->
  brackets pct 0 n 0 = Some (map bracket_of (triplets_of_basic pct n)).
Proof.
  intros Hlen. apply brackets_ext.
  - unfold triplets_of_basic. now rewrite !length_map, length_seq.
  - intros j Hj. rewrite Z.add_0_l.
    unfold triplets_of_basic. rewrite !nth_error_map.
    rewrite (nth_error_nth' (seq 0 n) 0%nat) by (rewrite length_seq; exact Hj).
    rewrite seq_nth by exact Hj. cbn [option_map Nat.add bracket_of].
    apply read_bracket_sample; [lia|].
    exists (nth (2 * j) pct pct_zero), (nth (2 * j + 1) pct pct_zero),
      (nth (2 * j + 2) pct pct_zero).
    change (stride 0) with 2.
    replace (Z.to_nat (2 * Z.of_nat j)) with (2 * j)%nat by lia.
    replace (Z.to_nat (2 * Z.of_nat j + 1)) with (2 * j + 1)%nat by lia.
    replace (Z.to_nat (2 * Z.of_nat j + 2)) with (2 * j + 2)%nat by lia.
    repeat split; apply nth_error_nth'; lia.
Qed.

(** X15: the two layouts are one selector: on [n >= 1] samples, basic mode
    on an array of [2 * n + 1] timestamps gives what extended mode gives on
    the same samples laid out as independent triplets, the shared
    timestamps being repeated. *)
Theorem sysoff_estimate_basic_as_extended (pct : list ptp_clock_time) (n : Z) :
  1 <= n -> 2 * n + 1 <= Z.of_nat (length pct) ->
  sysoff_estimate pct 0 n =
  sysoff_estimate (layout_extended (triplets_of_basic pct (Z.to_nat n))) 1 n.
Proof.
  intros Hn Hlen.
  assert (Hl : length (triplets_of_basic pct (Z.to_nat n)) = Z.to_nat n).
  { unfold triplets_of_basic. now rewrite length_map, length_seq. }
  rewrite (sysoff_estimate_select pct 0 n
             (map bracket_of (triplets_of_basic pct (Z.to_nat n)))); [|exact Hn|].
  - rewrite (sysoff_estimate_select _ 1 n
               (map bracket_of (triplets_of_basic pct (Z.to_nat n))));
      [reflexivity | exact Hn |].
    rewrite <- Hl at 2. apply brackets_layout.
  - apply brackets_basic. lia.
Qed.

Lemma sysoff_estimate_basic_as_extended_witness :
  let pct := [mk_pct 0 0 0; mk_pct 0 10 0; mk_pct 0 20 0; mk_pct 0 35 0;
              mk_pct 0 50 0] in
  sysoff_estimate pct 0 2 =
  sysoff_estimate (layout_extended (triplets_of_basic pct (Z.to_nat 2))) 1 2.
Proof.
  cbv zeta.
  apply (sysoff_estimate_basic_as_extended
           [mk_pct 0 0 0; mk_pct 0 10 0; mk_pct 0 20 0; mk_pct 0 35 0; mk_pct 0 50 0] 2).
  - lia.
  - cbn. lia.
Defined.

(** ** The samplers and the dispatcher *)

Section MoreRunning.

Context {W : Type}.
Variable drv : driver W.
Variable abi : cross_abi.

Local Open Scope string_scope.
Local Open Scope list_scope.
Local Open Scope Z_scope.

Local Abbreviation state := (state W).

Lemma filter_after (f : event -> bool) (s : state) (w : W) (es : list event) :
  filter f (log (after s w es)) = filter f (log s) ++ filter f es.
Proof. unfold after. cbn [log]. apply filter_app. Qed.

Lemma sysoff_precise_outcome (fd : Z) (o o' : outs) (s s' : state) (code : Z) :
  sysoff_precise drv fd o s = Some ((code, o'), s') ->
  (code = SYSOFF_PRECISE /\ o_delay o' = o_delay o \/
   code = SYSOFF_RUN_TIME_MISSING /\ o' = o) /\
  buf s' = buf s /\ filter is_stream (log s') = filter is_stream (log s).
Proof.
  destruct (drv_precise drv fd (world s)) as [[rc pso] w'] eqn:E.
  destruct (Z.eq_dec rc 0) as [-> | Hrc].
  - rewrite (sysoff_precise_ok _ _ _ _ _ _ E). intros H. injection H as <- <- <-.
    split; [left; now split|]. split; [reflexivity|].
    rewrite filter_after. cbn. apply app_nil_r.
  - rewrite (sysoff_precise_fail _ _ _ _ _ _ _ E Hrc). intros H.
    injection H as <- <- <-.
    split; [right; now split|]. split; [reflexivity|].
    rewrite filter_after. cbn. apply app_nil_r.
Qed.

Lemma sysoff_extended_outcome (fd n : Z) (o o' : outs) (s s' : state) (code : Z) :
  sysoff_extended drv fd n o s = Some ((code, o'), s') ->
  (code = SYSOFF_EXTENDED \/ code = SYSOFF_RUN_TIME_MISSING /\ o' = o) /\
  buf s' = buf s /\ filter is_stream (log s') = filter is_stream (log s).
Proof.
  destruct (drv_extended drv fd (u32 n) (world s)) as [[rc written] w'] eqn:E.
  destruct (Z.eq_dec rc 0) as [-> | Hrc].
  - unfold sysoff_extended, bind. rewrite (ioctl_run _ _ _ _ _ _ _ E).
    cbn [Z.eqb negb].
    destruct (sysoff_estimate (ts_extended written) 1 n) as [e|]; [|discriminate].
    cbn [run_estimate ret]. intros H. injection H as <- <- <-.
    split; [now left|]. split; [reflexivity|].
    rewrite filter_after. cbn. apply app_nil_r.
  - rewrite (sysoff_extended_fail _ _ _ _ _ _ _ _ E Hrc). intros H.
    injection H as <- <- <-.
    split; [right; now split|]. split; [reflexivity|].
    rewrite filter_after. cbn. apply app_nil_r.
Qed.

Lemma sysoff_basic_outcome (fd n : Z) (o o' : outs) (s s' : state) (code : Z) :
  sysoff_basic drv fd n o s = Some ((code, o'), s') ->
  (code = SYSOFF_BASIC \/ code = SYSOFF_RUN_TIME_MISSING /\ o' = o) /\
  buf s' = buf s /\ filter is_stream (log s') = filter is_stream (log s).
Proof.
  destruct (drv_basic drv fd (u32 n) (world s)) as [[rc written] w'] eqn:E.
  destruct (Z.eq_dec rc 0) as [-> | Hrc].
  - unfold sysoff_basic, bind. rewrite (ioctl_run _ _ _ _ _ _ _ E).
    cbn [Z.eqb negb].
    destruct (sysoff_estimate (ts_basic written) 0 n) as [e|]; [|discriminate].
    cbn [run_estimate ret]. intros H. injection H as <- <- <-.
    split; [now left|]. split; [reflexivity|].
    rewrite filter_after. cbn. apply app_nil_r.
  - rewrite (sysoff_basic_fail _ _ _ _ _ _ _ _ E Hrc). intros H.
    injection H as <- <- <-.
    split; [right; now split|]. split; [reflexivity|].
    rewrite filter_after. cbn. apply app_nil_r.
Qed.

(** Any run of [sysoff_cross]: its first step is the [poll] with a zero
    timeout, it issues no control request and keeps the size of [buf]. *)
Lemma sysoff_cross_outcome (fd : Z) (o o' : outs) (s s' : state) (code : Z) :
  sysoff_cross drv abi fd o s = Some ((code, o'), s') ->
  (code = SYSOFF_CROSS \/ code = SYSOFF_RUN_TIME_MISSING /\ o' = o) /\
  length (buf s') = length (buf s) /\
  filter is_ioctl (log s') = filter is_ioctl (log s) /\
  exists es, log s' = log s ++ Poll fd 0 :: es.
Proof.
  unfold sysoff_cross. unfold bind at 1.
  destruct (drv_poll drv fd (world s)) as [r w1] eqn:Ep.
  rewrite (poll_run _ _ _ _ _ _ Ep).
  destruct (r <? 1).
  { unfold bind. rewrite pr_debug_run. cbn [ret]. rewrite after_after.
    intros H. injection H as <- <- <-.
    split; [right; now split|]. split; [reflexivity|]. split.
    - rewrite filter_after. cbn. apply app_nil_r.
    - eexists. reflexivity. }
  unfold bind at 1.
  destruct (drv_read drv fd sizeof_buf w1) as [rd w2] eqn:Er.
  rewrite (read_run _ fd sizeof_buf (after s w1 [Poll fd 0]) rd w2 Er).
  destruct rd as [data|].
  - destruct (_ <? 0).
    { unfold bind. rewrite pr_debug_run. cbn [ret].
      intros H. injection H as <- <- <-. cbn [after buf log world].
      split; [right; now split|]. split; [apply length_overwrite|]. split.
      - rewrite !filter_app. cbn. now rewrite !app_nil_r.
      - eexists. rewrite <- !app_assoc. reflexivity. }
    destruct (u64 _ <? sizeof_event abi).
    { unfold bind. rewrite pr_debug_run. cbn [ret].
      intros H. injection H as <- <- <-. cbn [after buf log world].
      split; [right; now split|]. split; [apply length_overwrite|]. split.
      - rewrite !filter_app. cbn. now rewrite !app_nil_r.
      - eexists. rewrite <- !app_assoc. reflexivity. }
    unfold bind at 1. unfold get_buf. cbn [buf after].
    destruct (event_at abi _ _) as [ev|]; [|discriminate].
    destruct (Z.land (flags ev) (PTP_EVENT_CROSS abi) =? 0).
    + unfold bind. rewrite pr_debug_run. cbn [ret].
      intros H. injection H as <- <- <-. cbn [after buf log world].
      split; [right; now split|]. split; [apply length_overwrite|]. split.
      * rewrite !filter_app. cbn. now rewrite !app_nil_r.
      * eexists. rewrite <- !app_assoc. reflexivity.
    + cbn [ret]. intros H. injection H as <- <- <-. cbn [after buf log world].
      split; [now left|]. split; [apply length_overwrite|]. split.
      * rewrite !filter_app. cbn. now rewrite !app_nil_r.
      * eexists. rewrite <- !app_assoc. reflexivity.
  - destruct (-1 <? 0) eqn:Hneg; [|discriminate].
    unfold bind. rewrite pr_debug_run. cbn [ret]. rewrite !after_after.
    intros H. injection H as <- <- <-.
    split; [right; now split|]. split; [reflexivity|]. split.
    + rewrite filter_after. cbn. apply app_nil_r.
    + eexists. reflexivity.
Qed.

Lemma event_at_last_defined (b : list Byte.byte) (len : Z) :
  0 < sizeof_event abi ->
  sizeof_event abi <= len -> len <= Z.of_nat (length b) -> len <= 4096 ->
  exists ev,
    event_at abi b (u64 ((s32 (u64 len / sizeof_event abi) - 1) * sizeof_event abi))
    = Some ev.
Proof.
  intros Hsz Hlo Hb Hmax.
  pose proof (Z.div_mod len (sizeof_event abi) ltac:(lia)) as Hdm.
  pose proof (Z.mod_pos_bound len (sizeof_event abi) Hsz) as Hmb.
  rewrite (u64_id len) by (int_unfold; lia).
  set (q := len / sizeof_event abi) in *. clearbody q.
  assert (Hq : 1 <= q <= 4096) by nia.
  assert (Hs : s32 q = q) by (int_unfold; rewrite Z.mod_small; lia).
  rewrite Hs.
  rewrite u64_id by (int_unfold; nia).
  unfold event_at.
  destruct (Z.leb_spec 0 ((q - 1) * sizeof_event abi)) as [_ | ?]; [|nia].
  destruct (Z.leb_spec ((q - 1) * sizeof_event abi + sizeof_event abi)
                       (Z.of_nat (length b))) as [_ | ?]; [|nia].
  cbn [andb]. eauto.
Qed.

Lemma sysoff_cross_defined (fd : Z) (o : outs) (s : state) :
  0 < sizeof_event abi -> length (buf s) = Z.to_nat sizeof_buf ->
  sysoff_cross drv abi fd o s <> None.
Proof.
  intros Hsz Hbuf.
  unfold sysoff_cross. unfold bind at 1.
  destruct (drv_poll drv fd (world s)) as [r w1] eqn:Ep.
  rewrite (poll_run _ _ _ _ _ _ Ep).
  destruct (r <? 1); [discriminate|].
  unfold bind at 1.
  destruct (drv_read drv fd sizeof_buf w1) as [rd w2] eqn:Er.
  rewrite (read_run _ fd sizeof_buf (after s w1 [Poll fd 0]) rd w2 Er).
  destruct rd as [data|].
  - destruct (_ <? 0); [discriminate|].
    pose proof (firstn_le_length (Z.to_nat sizeof_buf) data) as Hmax.
    assert (Hmax' : Z.of_nat (length (firstn (Z.to_nat sizeof_buf) data)) <= 4096).
    { apply Nat2Z.inj_le in Hmax.
      rewrite Z2Nat.id in Hmax by (unfold sizeof_buf; lia). exact Hmax. }
    set (len := Z.of_nat (length (firstn (Z.to_nat sizeof_buf) data))) in *.
    destruct (Z.ltb_spec (u64 len) (sizeof_event abi)) as [_ | Hge];
      [discriminate|].
    rewrite (u64_id len) in Hge by (int_unfold; lia).
    unfold bind at 1. unfold get_buf. cbn [buf after].
    destruct (event_at_last_defined
                (overwrite (buf s) (firstn (Z.to_nat sizeof_buf) data)) len)
      as [ev ->]; try assumption.
    { rewrite length_overwrite, Hbuf, Z2Nat.id by (unfold sizeof_buf; lia).
      exact Hmax'. }
    destruct (Z.land (flags ev) (PTP_EVENT_CROSS abi) =? 0); discriminate.
  - change (-1 <? 0) with true. cbv iota. discriminate.
Qed.

(** X8: [sysoff_cross] always has a result, whatever the device answers,
    as long as a record has a positive size and [buf] has its 4096 bytes:
    it never looks outside of [buf].  It returns either [SYSOFF_CROSS] or
    [SYSOFF_RUN_TIME_MISSING] with the outputs untouched, keeps the size
    of [buf], issues no control request and starts with the [poll] whose
    timeout is zero. *)
Theorem sysoff_cross_safe (fd : Z) (o : outs) (s : state) :
  0 < sizeof_event abi -> length (buf s) = Z.to_nat sizeof_buf ->
  exists code o' s',
    sysoff_cross drv abi fd o s = Some ((code, o'), s') /\
    (code = SYSOFF_CROSS \/ code = SYSOFF_RUN_TIME_MISSING /\ o' = o) /\
    length (buf s') = Z.to_nat sizeof_buf /\
    filter is_ioctl (log s') = filter is_ioctl (log s) /\
    exists es, log s' = log s ++ Poll fd 0 :: es.
Proof.
  intros Hsz Hbuf.
  pose proof (sysoff_cross_defined fd o s Hsz Hbuf) as Hdef.
  destruct (sysoff_cross drv abi fd o s) as [[[code o'] s']|] eqn:E; [|congruence].
  destruct (sysoff_cross_outcome _ _ _ _ _ _ E) as (Hc & Hl & Hi & Hp).
  exists code, o', s'. split; [reflexivity|]. split; [exact Hc|].
  split; [congruence|]. split; assumption.
Qed.

(** X9: whatever [sysoff_measure] returns is the method asked for, which
    is then one of the four methods, or [SYSOFF_RUN_TIME_MISSING]; in that
    case the offset and the timestamp of the caller are untouched and its
    delay is set to 0 for the Cross and the Precise method and untouched
    for the others.  A method that is none of the four is answered with
    [SYSOFF_RUN_TIME_MISSING] without any access to the device. *)
Theorem sysoff_measure_outcome (fd method n : Z) (o o' : outs) (s s' : state)
    (code : Z) :
  sysoff_measure drv abi fd method n o s = Some ((code, o'), s') ->
  (code = method /\
   In method [SYSOFF_CROSS; SYSOFF_PRECISE; SYSOFF_EXTENDED; SYSOFF_BASIC] \/
   code = SYSOFF_RUN_TIME_MISSING /\
   o_result o' = o_result o /\ o_ts o' = o_ts o /\
   o_delay o' = if (method =? SYSOFF_CROSS) || (method =? SYSOFF_PRECISE)
                then 0 else o_delay o) /\
  (~ In method [SYSOFF_CROSS; SYSOFF_PRECISE; SYSOFF_EXTENDED; SYSOFF_BASIC] ->
   code = SYSOFF_RUN_TIME_MISSING /\ s' = s).
Proof.
  unfold sysoff_measure.
  destruct (Z.eqb_spec method SYSOFF_CROSS) as [-> | H0].
  { intros E. apply sysoff_cross_outcome in E as ([-> | [-> ->]] & _).
    - split; [left; split; [reflexivity | now left] | intros H; elim H; now left].
    - split; [right; repeat split | intros H; elim H; now left]. }
  destruct (Z.eqb_spec method SYSOFF_PRECISE) as [-> | H1].
  { intros E. apply sysoff_precise_outcome in E as ([[-> _] | [-> ->]] & _).
    - split; [left; split; [reflexivity | right; now left]
             | intros H; elim H; right; now left].
    - split; [right; repeat split | intros H; elim H; right; now left]. }
  destruct (Z.eqb_spec method SYSOFF_EXTENDED) as [-> | H2].
  { intros E. apply sysoff_extended_outcome in E as ([-> | [-> ->]] & _).
    - split; [left; split; [reflexivity | right; right; now left]
             | intros H; elim H; right; right; now left].
    - split; [right; repeat split | intros H; elim H; right; right; now left]. }
  destruct (Z.eqb_spec method SYSOFF_BASIC) as [-> | H3].
  { intros E. apply sysoff_basic_outcome in E as ([-> | [-> ->]] & _).
    - split; [left; split; [reflexivity | right; right; right; now left]
             | intros H; elim H; right; right; right; now left].
    - split; [right; repeat split
             | intros H; elim H; right; right; right; now left]. }
  cbn [ret orb]. intros E. injection E as <- <- <-.
  split; [right; repeat split | intros _; now split].
Qed.

(** X10: [sysoff_measure] does not check the sample count.  With more than
    [PTP_MAX_SAMPLES] samples and an Extended or a Basic request that the
    device accepts, [sysoff_estimate] reads beyond the [ts] array of the
    request structure: the call has no defined result. *)
Theorem sysoff_measure_unchecked_sample_count (fd n : Z) (o : outs) (s : state) :
  PTP_MAX_SAMPLES < n ->
  (forall written w',
      drv_extended drv fd (u32 n) (world s) = (0, written, w') ->
      sysoff_measure drv abi fd SYSOFF_EXTENDED n o s = None) /\
  (forall written w',
      drv_basic drv fd (u32 n) (world s) = (0, written, w') ->
      sysoff_measure drv abi fd SYSOFF_BASIC n o s = None).
Proof.
  intros Hn. unfold PTP_MAX_SAMPLES in Hn. split; intros written w' E.
  - rewrite sysoff_measure_extended. unfold sysoff_extended, bind.
    rewrite (ioctl_run _ _ _ _ _ _ _ E). cbn [Z.eqb negb].
    destruct (sysoff_estimate (ts_extended written) 1 n) as [e|] eqn:He;
      [|reflexivity].
    apply sysoff_estimate_bound in He.
    rewrite length_ts_extended in He. change (stride 1) with 3 in He. lia.
  - rewrite sysoff_measure_basic. unfold sysoff_basic, bind.
    rewrite (ioctl_run _ _ _ _ _ _ _ E). cbn [Z.eqb negb].
    destruct (sysoff_estimate (ts_basic written) 0 n) as [e|] eqn:He;
      [|reflexivity].
    apply sysoff_estimate_bound in He.
    rewrite length_ts_basic in He. change (stride 0) with 2 in He. lia.
Qed.

Lemma overwrite_short {A : Type} (dst src : list A) :
  (length src <= length dst)%nat ->
  overwrite dst src = src ++ skipn (length src) dst.
Proof.
  intros H. unfold overwrite. apply firstn_all2.
  rewrite length_app, length_skipn. lia.
Qed.

Lemma sysoff_estimate_padded (written pad : list ptp_clock_time)
    (extended n : Z) (e : estimate) :
  (length written <= length pad)%nat ->
  sysoff_estimate written extended n = Some e ->
  sysoff_estimate (overwrite pad written) extended n = Some e.
Proof.
  intros Hlen. rewrite (overwrite_short _ _ Hlen).
  unfold sysoff_estimate.
  destruct (read_bracket written extended 0) as [b0|] eqn:E0; [|discriminate].
  rewrite (read_bracket_app _ _ _ _ _ E0).
  destruct (estimate_loop written extended (Z.to_nat (n - 1)) 1 (first_best b0))
    as [acc|] eqn:El; [|discriminate].
  now rewrite (estimate_loop_app _ _ _ _ _ _ _ El).
Qed.

(** X11: when the device accepts an Extended or a Basic request and
    stores timestamps that fit the request structure and hold the [n]
    samples, [sysoff_measure] returns the method with the result of
    [sysoff_estimate] on those timestamps alone: the zeroed rest of the
    array plays no part. *)
Theorem sysoff_measure_best_of_stored (fd n : Z) (o : outs) (s : state)
    (written : list ptp_clock_time) (w' : W) (e : estimate) :
  (Z.of_nat (length written) <= 3 * PTP_MAX_SAMPLES ->
   drv_extended drv fd (u32 n) (world s) = (0, written, w') ->
   sysoff_estimate written 1 n = Some e ->
   sysoff_measure drv abi fd SYSOFF_EXTENDED n o s =
   Some ((SYSOFF_EXTENDED, outs_of e),
         after s w' [Ioctl fd (PTP_SYS_OFFSET_EXTENDED (u32 n))])) /\
  (Z.of_nat (length written) <= 2 * PTP_MAX_SAMPLES + 1 ->
   drv_basic drv fd (u32 n) (world s) = (0, written, w') ->
   sysoff_estimate written 0 n = Some e ->
   sysoff_measure drv abi fd SYSOFF_BASIC n o s =
   Some ((SYSOFF_BASIC, outs_of e),
         after s w' [Ioctl fd (PTP_SYS_OFFSET (u32 n))])).
Proof.
  unfold PTP_MAX_SAMPLES. split; intros Hlen E He.
  - rewrite sysoff_measure_extended.
    apply (sysoff_extended_ok _ _ _ _ _ _ _ _ E).
    apply sysoff_estimate_padded; [rewrite repeat_length; unfold PTP_MAX_SAMPLES; lia | exact He].
  - rewrite sysoff_measure_basic.
    apply (sysoff_basic_ok _ _ _ _ _ _ _ _ E).
    apply sysoff_estimate_padded; [rewrite repeat_length; unfold PTP_MAX_SAMPLES; lia | exact He].
Qed.

(** *** The enabler and the prober *)

(** X12: [sysoff_cross_enable] issues one request; for a period of
    [0 <= period < 2^31] nanoseconds the request carries the period as a
    normalised timestamp ([pctns] gives the period back, the nanoseconds
    are below a second, [reserved] is 0); the result is [SYSOFF_CROSS]
    when the request returns 0 and [SYSOFF_RUN_TIME_MISSING] otherwise. *)
Theorem sysoff_cross_enable_period (fd period : Z) (s : state) (rc : Z) (w' : W) :
  0 <= period < 2 ^ 31 ->
  drv_crossts drv fd (nspct period pct_zero) (world s) = (rc, w') ->
  exists sent,
    sysoff_cross_enable drv fd period s =
    Some (if rc =? 0 then SYSOFF_CROSS else SYSOFF_RUN_TIME_MISSING,
          after s w'
            (Ioctl fd (PTP_CROSSTS_REQUEST sent)
             :: if rc =? 0 then []
                else [PrDebug "ioctl PTP_CROSSTS_REQUEST: %m" (drv_errno drv w')])) /\
    pctns sent = period /\
    0 <= sec sent /\ 0 <= nsec sent < NS_PER_SEC /\ reserved sent = 0.
Proof.
  intros Hp E. exists (nspct period pct_zero).
  destruct (nspct_nonneg_fields period pct_zero) as (Hs & Hn & Hr);
    [int_unfold; lia|].
  pose proof (Z.div_mod period NS_PER_SEC ltac:(discriminate)) as Hdm.
  pose proof (Z.mod_pos_bound period NS_PER_SEC ltac:(reflexivity)) as Hmb.
  assert (Hq : 0 <= period / NS_PER_SEC)
    by (apply Z.div_pos; [lia | reflexivity]).
  split; [|split; [|split; [|split]]].
  - rewrite (sysoff_cross_enable_run _ _ _ _ _ _ E).
    destruct (rc =? 0); reflexivity.
  - rewrite pctns_exact; rewrite ?Hs, ?Hn; int_unfold; lia.
  - rewrite Hs. exact Hq.
  - rewrite Hn. exact Hmb.
  - exact Hr.
Qed.

Lemma sysoff_probe_reject (fd n : Z) (s : state) :
  PTP_MAX_SAMPLES < n ->
  exists s', sysoff_probe drv abi fd n s = Some (SYSOFF_RUN_TIME_MISSING, s') /\
             world s' = world s /\ buf s' = buf s /\
             filter is_stream (log s') = filter is_stream (log s).
Proof.
  intros Hn. unfold sysoff_probe.
  destruct (Z.gtb_spec n PTP_MAX_SAMPLES) as [_ | Hle]; [|lia].
  unfold bind, fprintf_stderr, emit, ret. cbn [world log buf].
  eexists. split; [reflexivity|]. cbn [world log buf].
  split; [reflexivity|]. split; [reflexivity|].
  rewrite !filter_app. cbn. now rewrite !app_nil_r.
Qed.

Lemma sysoff_probe_accept (fd n : Z) (s : state)
    (rc0 rc1 rc2 rc3 : Z) (w0 w1 w2 w3 : W)
    (pso : ptp_sys_offset_precise) (wr2 wr3 : list ptp_clock_time) :
  n <= PTP_MAX_SAMPLES ->
  drv_crossts drv fd probe_period (world s) = (rc0, w0) ->
  drv_precise drv fd w0 = (rc1, pso, w1) ->
  drv_extended drv fd (u32 n) w1 = (rc2, wr2, w2) ->
  drv_basic drv fd (u32 n) w2 = (rc3, wr3, w3) ->
  exists s',
    sysoff_probe drv abi fd n s = Some (probe_choice rc0 rc1 rc2 rc3, s') /\
    In (world s') [w0; w1; w2; w3] /\ buf s' = buf s /\
    filter is_stream (log s') = filter is_stream (log s).
Proof.
  intros Hn E0 E1 E2 E3.
  unfold sysoff_probe, probe_choice.
  destruct (Z.gtb_spec n PTP_MAX_SAMPLES) as [Hgt | _]; [lia|].
  cbv zeta. unfold bind at 1.
  rewrite (sysoff_cross_enable_run _ fd (s32 (1 * NS_PER_MSEC)) s rc0 w0 E0).
  rewrite probe_period_eq.
  destruct (Z.eqb_spec rc0 0) as [H0 | H0].
  { eexists. split; [reflexivity|]. split; [now left|]. split; [reflexivity|].
    rewrite filter_after. cbn. apply app_nil_r. }
  change (SYSOFF_RUN_TIME_MISSING >=? 0) with false. cbv iota.
  change (Z.to_nat (SYSOFF_LAST - (SYSOFF_CROSS + 1))) with 3%nat.
  change (SYSOFF_CROSS + 1) with SYSOFF_PRECISE.
  cbn [probe_loop]. unfold bind at 1.
  rewrite sysoff_measure_precise.
  destruct (Z.eqb_spec rc1 0) as [-> | H1].
  { rewrite (sysoff_precise_ok _ fd _ (after s w0 _) pso w1 E1).
    rewrite after_after.
    eexists. split; [reflexivity|]. split; [right; now left|].
    split; [reflexivity|]. rewrite filter_after. cbn. apply app_nil_r. }
  rewrite (sysoff_precise_fail _ fd _ (after s w0 _) rc1 pso w1 E1 H1).
  change (SYSOFF_RUN_TIME_MISSING <? 0) with true. cbv iota.
  change (SYSOFF_PRECISE + 1) with SYSOFF_EXTENDED.
  unfold bind at 1. rewrite sysoff_measure_extended, after_after.
  destruct (Z.eqb_spec rc2 0) as [-> | H2].
  { destruct (estimate_extended_defined wr2 n Hn) as [e He].
    rewrite (sysoff_extended_ok _ fd n _ (after s w1 _) wr2 w2 e E2 He).
    rewrite after_after.
    eexists. split; [reflexivity|]. split; [right; right; now left|].
    split; [reflexivity|]. rewrite filter_after. cbn. apply app_nil_r. }
  rewrite (sysoff_extended_fail _ fd n _ (after s w1 _) rc2 wr2 w2 E2 H2).
  change (SYSOFF_RUN_TIME_MISSING <? 0) with true. cbv iota.
  change (SYSOFF_EXTENDED + 1) with SYSOFF_BASIC.
  unfold bind at 1. rewrite sysoff_measure_basic, after_after.
  destruct (Z.eqb_spec rc3 0) as [-> | H3].
  { destruct (estimate_basic_defined wr3 n Hn) as [e He].
    rewrite (sysoff_basic_ok _ fd n _ (after s w2 _) wr3 w3 e E3 He).
    rewrite after_after.
    eexists. split; [reflexivity|]. split; [right; right; right; now left|].
    split; [reflexivity|]. rewrite filter_after. cbn. apply app_nil_r. }
  rewrite (sysoff_basic_fail _ fd n _ (after s w2 _) rc3 wr3 w3 E3 H3).
  change (SYSOFF_RUN_TIME_MISSING <? 0) with true. cbv iota.
  rewrite after_after.
  eexists. split; [reflexivity|]. split; [right; right; right; now left|].
  split; [reflexivity|]. rewrite filter_after. cbn. apply app_nil_r.
Qed.

Lemma probe_choice_range (rc0 rc1 rc2 rc3 : Z) :
  In (probe_choice rc0 rc1 rc2 rc3)
     [SYSOFF_RUN_TIME_MISSING; SYSOFF_CROSS; SYSOFF_PRECISE; SYSOFF_EXTENDED;
      SYSOFF_BASIC].
Proof.
  unfold probe_choice.
  destruct (rc0 =? 0); [right; now left|].
  destruct (rc1 =? 0); [right; right; now left|].
  destruct (rc2 =? 0); [right; right; right; now left|].
  destruct (rc3 =? 0); [right; right; right; right; now left | now left].
Qed.

(** X13: [sysoff_probe] always has a result, for every sample count and
    every device: it never reads outside of an array.  The result is
    [SYSOFF_RUN_TIME_MISSING] or one of the four methods, and probing does
    not touch the event stream: no [poll], no [read], and [buf] is left as
    it was. *)
Theorem sysoff_probe_total (fd n : Z) (s : state) :
  exists code s',
    sysoff_probe drv abi fd n s = Some (code, s') /\
    In code [SYSOFF_RUN_TIME_MISSING; SYSOFF_CROSS; SYSOFF_PRECISE;
             SYSOFF_EXTENDED; SYSOFF_BASIC] /\
    buf s' = buf s /\
    filter is_stream (log s') = filter is_stream (log s).
Proof.
  destruct (Z_lt_le_dec PTP_MAX_SAMPLES n) as [Hn | Hn].
  - destruct (sysoff_probe_reject fd n s Hn) as (s' & E & _ & Hb & Hl).
    exists SYSOFF_RUN_TIME_MISSING, s'.
    split; [exact E|]. split; [now left|]. split; assumption.
  - destruct (drv_crossts drv fd probe_period (world s)) as [rc0 w0] eqn:E0.
    destruct (drv_precise drv fd w0) as [[rc1 pso] w1] eqn:E1.
    destruct (drv_extended drv fd (u32 n) w1) as [[rc2 wr2] w2] eqn:E2.
    destruct (drv_basic drv fd (u32 n) w2) as [[rc3 wr3] w3] eqn:E3.
    destruct (sysoff_probe_accept fd n s _ _ _ _ _ _ _ _ _ _ _ Hn E0 E1 E2 E3)
      as (s' & E & _ & Hb & Hl).
    exists (probe_choice rc0 rc1 rc2 rc3), s'.
    split; [exact E|]. split; [apply probe_choice_range|]. split; assumption.
Qed.

(** X14: on a device that its requests leave as it was, the method that
    [sysoff_probe] selects among Precise, Extended and Basic works right
    after: [sysoff_measure] with that method and the same sample count
    succeeds. *)
Theorem sysoff_probe_then_measure (fd n m : Z) (o : outs) (s s' : state) :
  stateless drv ->
  sysoff_probe drv abi fd n s = Some (m, s') ->
  In m [SYSOFF_PRECISE; SYSOFF_EXTENDED; SYSOFF_BASIC] ->
  exists o' s'', sysoff_measure drv abi fd m n o s' = Some ((m, o'), s'').
Proof.
  intros (Sp & Se & Sb & Sc) Hprobe Hm.
  destruct (Z_lt_le_dec PTP_MAX_SAMPLES n) as [Hn | Hn].
  { destruct (sysoff_probe_reject fd n s Hn) as (s1 & E & _).
    rewrite E in Hprobe. injection Hprobe as <- <-.
    destruct Hm as [H | [H | [H | []]]]; discriminate. }
  destruct (drv_crossts drv fd probe_period (world s)) as [rc0 w0] eqn:E0.
  pose proof (Sc fd probe_period (world s)) as H0. rewrite E0 in H0. cbn in H0.
  subst w0.
  destruct (drv_precise drv fd (world s)) as [[rc1 pso] w1] eqn:E1.
  pose proof (Sp fd (world s)) as H1. rewrite E1 in H1. cbn in H1. subst w1.
  destruct (drv_extended drv fd (u32 n) (world s)) as [[rc2 wr2] w2] eqn:E2.
  pose proof (Se fd (u32 n) (world s)) as H2. rewrite E2 in H2. cbn in H2.
  subst w2.
  destruct (drv_basic drv fd (u32 n) (world s)) as [[rc3 wr3] w3] eqn:E3.
  pose proof (Sb fd (u32 n) (world s)) as H3. rewrite E3 in H3. cbn in H3.
  subst w3.
  destruct (sysoff_probe_accept fd n s _ _ _ _ _ _ _ _ _ _ _ Hn E0 E1 E2 E3)
    as (s1 & E & Hw & _).
  rewrite E in Hprobe. injection Hprobe as <- <-.
  assert (Hworld : world s1 = world s).
  { destruct Hw as [H | [H | [H | [H | []]]]]; now symmetry. }
  rewrite <- Hworld in E1, E2, E3.
  unfold probe_choice in *.
  destruct (Z.eqb_spec rc0 0) as [_ | _].
  { destruct Hm as [H | [H | [H | []]]]; discriminate. }
  destruct (Z.eqb_spec rc1 0) as [-> | _].
  { rewrite sysoff_measure_precise.
    rewrite (sysoff_precise_ok _ _ _ _ _ _ E1). eauto. }
  destruct (Z.eqb_spec rc2 0) as [-> | _].
  { rewrite sysoff_measure_extended.
    destruct (estimate_extended_defined wr2 n Hn) as [e He].
    rewrite (sysoff_extended_ok _ _ _ _ _ _ _ _ E2 He). eauto. }
  destruct (Z.eqb_spec rc3 0) as [-> | _].
  { rewrite sysoff_measure_basic.
    destruct (estimate_basic_defined wr3 n Hn) as [e He].
    rewrite (sysoff_basic_ok _ _ _ _ _ _ _ _ E3 He). eauto. }
  destruct Hm as [H | [H | [H | []]]]; discriminate.
Qed.

End MoreRunning.

(** ** The further properties on the example devices *)

Lemma sysoff_cross_safe_witness :
  exists code o' s',
    sysoff_cross (sim_driver 0 0 0 0 0 [] 1 (Some example_stream)) example_abi 3
                 no_outs start = Some ((code, o'), s') /\
    (code = SYSOFF_CROSS \/ code = SYSOFF_RUN_TIME_MISSING /\ o' = no_outs) /\
    length (buf s') = Z.to_nat sizeof_buf /\
    filter is_ioctl (log s') = filter is_ioctl (log start) /\
    exists es, log s' = log start ++ Poll 3 0 :: es.
Proof.
  apply (sysoff_cross_safe (sim_driver 0 0 0 0 0 [] 1 (Some example_stream))
           example_abi 3 no_outs start); reflexivity.
Defined.

Lemma sysoff_measure_outcome_witness :
  (SYSOFF_RUN_TIME_MISSING = SYSOFF_PRECISE /\
   In SYSOFF_PRECISE [SYSOFF_CROSS; SYSOFF_PRECISE; SYSOFF_EXTENDED; SYSOFF_BASIC] \/
   SYSOFF_RUN_TIME_MISSING = SYSOFF_RUN_TIME_MISSING /\
   o_result (mk_outs 7 8 0) = o_result (mk_outs 7 8 9) /\
   o_ts (mk_outs 7 8 0) = o_ts (mk_outs 7 8 9) /\
   o_delay (mk_outs 7 8 0) =
     if (SYSOFF_PRECISE =? SYSOFF_CROSS) || (SYSOFF_PRECISE =? SYSOFF_PRECISE)
     then 0 else o_delay (mk_outs 7 8 9)) /\
  (~ In SYSOFF_PRECISE [SYSOFF_CROSS; SYSOFF_PRECISE; SYSOFF_EXTENDED; SYSOFF_BASIC] ->
   SYSOFF_RUN_TIME_MISSING = SYSOFF_RUN_TIME_MISSING /\
   after start tt [Ioctl 3 PTP_SYS_OFFSET_PRECISE;
                   PrDebug "ioctl PTP_SYS_OFFSET_PRECISE: %m" 25] = start).
Proof.
  apply (sysoff_measure_outcome (failing_driver 25) example_abi 3 SYSOFF_PRECISE 1
           (mk_outs 7 8 9) (mk_outs 7 8 0) start
           (after start tt [Ioctl 3 PTP_SYS_OFFSET_PRECISE;
                            PrDebug "ioctl PTP_SYS_OFFSET_PRECISE: %m" 25])
           SYSOFF_RUN_TIME_MISSING).
  reflexivity.
Defined.

(** A device that accepts a request for 26 samples. *)
Lemma sysoff_measure_unchecked_sample_count_witness :
  sysoff_measure (sim_driver 0 0 0 0 0 example_pct 0 None) example_abi 3
                 SYSOFF_EXTENDED 26 no_outs start = None.
Proof.
  apply (proj1 (sysoff_measure_unchecked_sample_count
                  (sim_driver 0 0 0 0 0 example_pct 0 None) example_abi
                  3 26 no_outs start ltac:(reflexivity))
           example_pct tt).
  reflexivity.
Defined.

Lemma sysoff_measure_best_of_stored_witness :
  sysoff_measure (sim_driver 0 0 0 0 0 example_pct 0 None) example_abi 3
                 SYSOFF_EXTENDED 2 no_outs start =
  Some ((SYSOFF_EXTENDED, mk_outs 10 1050 100),
        after start tt [Ioctl 3 (PTP_SYS_OFFSET_EXTENDED 2)]).
Proof.
  apply (proj1 (sysoff_measure_best_of_stored
                  (sim_driver 0 0 0 0 0 example_pct 0 None) example_abi
                  3 2 no_outs start example_pct tt (mk_estimate 10 1050 100))).
  - discriminate.
  - reflexivity.
  - reflexivity.
Defined.

Lemma sysoff_cross_enable_period_witness :
  exists sent,
    sysoff_cross_enable (failing_driver 25) 3 1000000 start =
    Some (SYSOFF_RUN_TIME_MISSING,
          after start tt
            [Ioctl 3 (PTP_CROSSTS_REQUEST sent);
             PrDebug "ioctl PTP_CROSSTS_REQUEST: %m" 25]) /\
    pctns sent = 1000000 /\
    0 <= sec sent /\ 0 <= nsec sent < NS_PER_SEC /\ reserved sent = 0.
Proof.
  apply (sysoff_cross_enable_period (failing_driver 25) 3 1000000 start (-1) tt).
  - int_unfold. lia.
  - reflexivity.
Defined.

Lemma sim_driver_stateless (cross precise extended basic e : Z)
    (samples : list ptp_clock_time) (ready : Z)
    (stream : option (list Byte.byte)) :
  stateless (sim_driver cross precise extended basic e samples ready stream).
Proof. repeat split. Qed.

Lemma sysoff_probe_then_measure_witness :
  exists o' s'',
    sysoff_measure (sim_driver (-1) (-1) 0 0 25 example_pct 0 None) example_abi 3
                   SYSOFF_EXTENDED 2 no_outs
                   (after start tt
                      [Ioctl 3 (PTP_CROSSTS_REQUEST (mk_pct 0 1000000 0));
                       PrDebug "ioctl PTP_CROSSTS_REQUEST: %m" 25;
                       Ioctl 3 PTP_SYS_OFFSET_PRECISE;
                       PrDebug "ioctl PTP_SYS_OFFSET_PRECISE: %m" 25;
                       Ioctl 3 (PTP_SYS_OFFSET_EXTENDED 2)])
    = Some ((SYSOFF_EXTENDED, o'), s'').
Proof.
  apply (sysoff_probe_then_measure
           (sim_driver (-1) (-1) 0 0 25 example_pct 0 None) example_abi
           3 2 SYSOFF_EXTENDED no_outs start).
  - apply sim_driver_stateless.
  - reflexivity.
  - right. left. reflexivity.
Defined.

(** Cross selected by the prober gives no such guarantee: armed, with an
    empty event stream, the Cross measurement that follows fails. *)
Example sysoff_probe_cross_then_measure :
  let drv := sim_driver 0 0 0 0 0 example_pct 0 None in
  returned (sysoff_probe drv example_abi 3 2 start) = Some SYSOFF_CROSS /\
  returned (sysoff_measure drv example_abi 3 SYSOFF_CROSS 2 no_outs start)
  = Some (SYSOFF_RUN_TIME_MISSING, no_outs).
Proof. split; reflexivity. Qed.
